(** * PopupModal: the media detail overlay of the media browser

    A shallow embedding of [src/components/media/PopupModal.tsx]: the
    pure view computations of the component (runtime formatting, the
    certification badge, the star row, the watch route), its two fetch
    effects with their shared error slot, and the document-level
    [mousedown] subscription.

    Conventions.
    - JavaScript strings are [string]; an optional field ([f?: T]) and a
      nullable state slot ([T | null]) are [option T].
    - An integral JavaScript number is a [Z], and the statements about it
      stay within the safe integers; the vote average, which is
      fractional, is a [Q] (every finite double is a rational, and the only
      arithmetic applied to it, halving and [Math.round], is exact there).
    - [new Date(s)] is a parameter of the development: a function from the
      date string to its time value, [None] standing for the [NaN] of an
      invalid date. *)

From Stdlib Require Import ZArith QArith Qround String Ascii List Bool Lia.
From Stdlib Require Import DecimalString.
Import ListNotations.

Set Warnings "-register-all".

Local Open Scope string_scope.
Local Open Scope Z_scope.

(** ** JavaScript primitives *)

Module JS.

(** [Number.MAX_SAFE_INTEGER]: up to it in magnitude every integer is a
    number of JavaScript, and the arithmetic on integers below is the
    arithmetic of the code. *)
Definition MAX_SAFE_INTEGER : Z := 9007199254740991.

(** [Number::toString] on a safe integer: its decimal digits, with a
    leading minus sign when it is negative.  (Beyond the safe integers a
    number is printed with the shortest digits that read back as the same
    double, which this definition does not follow; no statement below
    takes it there.) *)
Definition Number_toString (n : Z) : string :=
  NilZero.string_of_int (Z.to_int n).

(** [ToBoolean] on a string: only the empty string is falsy. *)
Definition truthy (s : string) : bool :=
  match s with
  | EmptyString => false
  | String _ _ => true
  end.

(** [ToBoolean] on an optional string ([undefined] and [null] are falsy). *)
Definition truthy_opt (o : option string) : bool :=
  match o with
  | Some s => truthy s
  | None => false
  end.

(** [Math.floor (a / b)] for a safe integer [a] and the divisor 60 of the
    code: the rounding of the quotient to a double never reaches the next
    integer there, so the result is the floor of the exact quotient.
    (Beyond the safe integers the code floors a rounded quotient, which
    this definition does not follow.) *)
Definition floor_div (a b : Z) : Z := a / b.

(** The [%] operator on safe integers (it is exact): the sign follows the
    dividend. *)
Definition remainder (a b : Z) : Z := Z.rem a b.

(** A JavaScript number that may be [NaN]. *)
Definition number := option Q.

(** [Number(v)] on an optional numeric field: [undefined] becomes [NaN]. *)
Definition Number_of (v : option Q) : number := v.

(** [x / 2]. *)
Definition half (x : number) : number :=
  match x with
  | Some q => Some (q / 2)%Q
  | None => None
  end.

(** [Math.round]: the closest integer, the upper one of the two when [x]
    lies half way; [NaN] is kept. *)
Definition Math_round (x : number) : option Z :=
  match x with
  | Some q =>
      let f := Qfloor q in
      if Qle_bool (1 # 2) (q - inject_Z f)%Q then Some (f + 1) else Some f
  | None => None
  end.

(** [index < x] for an integral index: false when [x] is [NaN]. *)
Definition lt_number (index : Z) (x : option Z) : bool :=
  match x with
  | Some z => index <? z
  | None => false
  end.

(** [Array.prototype.find]. *)
Definition find {A} (p : A -> bool) (l : list A) : option A := List.find p l.

(** [Array.prototype.reduce] without an initial value, on an array known
    to be non-empty: the first element seeds the accumulator.  On the
    empty array JavaScript throws; that is [None] here. *)
Definition reduce {A} (f : A -> A -> A) (l : list A) : option A :=
  match l with
  | [] => None
  | x :: tl => Some (fold_left f tl x)
  end.

End JS.

(** ** Runtime formatting *)

(** [formatRuntime]: hours and minutes of a runtime given in minutes (a
    safe integer here). *)
Definition formatRuntime (runtime : Z) : string :=
  let hours := JS.floor_div runtime 60 in
  let minutes := JS.remainder runtime 60 in
  if 0 <? hours
  then JS.Number_toString hours ++ "h " ++ JS.Number_toString minutes ++ "m"
  else JS.Number_toString minutes ++ "m".

(** The runtime text as the specification words it: [floor (r / 60)] hours
    and [r mod 60] minutes, the hour segment present when the hour count is
    positive. *)
Definition formatRuntime_spec (r : Z) : string :=
  let h := r / 60 in
  let m := r mod 60 in
  if Z.ltb 0 h
  then JS.Number_toString h ++ "h " ++ JS.Number_toString m ++ "m"
  else JS.Number_toString m ++ "m".

(** ** Data model *)

(** [MediaItem] (declared in [@/utils/mediaTypes]): the fields the
    component reads.  [type] is kept a string, as the component compares it
    with string literals and guards against values other than the two it
    supports. *)
Record MediaItem := mkMediaItem {
  id : string;
  type : string;
  title : string;
  poster : option string
}.

(** [MediaData]: the primary metadata of the media. *)
Record MediaData := mkMediaData {
  backdrop_path : option string;
  md_title : option string;
  name : option string;
  runtime : option Z;
  release_date_md : option string;
  first_air_date : option string;
  vote_average : option Q;
  genres : option (list string);
  overview : option string
}.

(** One element of [release_dates]. *)
Record ReleaseDate := mkReleaseDate {
  certification : string;
  release_date : string
}.

(** One element of [MediaInfo.results]. *)
Record RegionResult := mkRegionResult {
  iso_3166_1 : string;
  rating : option string;
  release_dates : option (list ReleaseDate)
}.

(** [MediaInfo]: the certification response. *)
Record MediaInfo := mkMediaInfo {
  results : option (list RegionResult)
}.

(** ** The certification badge *)

(** What a slot of the view holds: a text or the loading placeholder. *)
Inductive Slot :=
| Text (s : string)
| Skeleton.

(** [mediaInfo?.results?.find (result => result.iso_3166_1 === "US")]. *)
Definition usReleaseInfo (mediaInfo : option MediaInfo) : option RegionResult :=
  match mediaInfo with
  | Some mi =>
      match results mi with
      | Some rs => JS.find (fun result => String.eqb (iso_3166_1 result) "US") rs
      | None => None
      end
  | None => None
  end.

(** [usReleaseInfo?.release_dates?.filter (date => date.certification) || []]. *)
Definition certifiedReleases (mediaInfo : option MediaInfo) : list ReleaseDate :=
  match usReleaseInfo mediaInfo with
  | Some us =>
      match release_dates us with
      | Some ds => filter (fun date => JS.truthy (certification date)) ds
      | None => []
      end
  | None => []
  end.

Section WithDate.

(** The time value of [new Date (s)]; [None] for an invalid date. *)
Variable timeValue : string -> option Z.

(** [new Date (a) > new Date (b)]: a comparison of the two time values,
    false as soon as one of them is [NaN]. *)
Definition date_gt (a b : string) : bool :=
  match timeValue a, timeValue b with
  | Some x, Some y => y <? x
  | _, _ => false
  end.

(** The callback of the [reduce]. *)
Definition laterRelease (prev current : ReleaseDate) : ReleaseDate :=
  if date_gt (release_date prev) (release_date current) then prev else current.

(** [relevantRelease]. *)
Definition relevantRelease (mediaInfo : option MediaInfo) : option ReleaseDate :=
  let certified := certifiedReleases mediaInfo in
  if (0 <? length certified)%nat
  then JS.reduce laterRelease certified
  else None.

(** [displayCertification]. *)
Definition displayCertification (mediaInfo : option MediaInfo) : string :=
  match relevantRelease mediaInfo with
  | Some r => certification r
  | None => "Not Rated"
  end.

(** The value of the immediately invoked function of the other branch:
    the content rating of the US entry, or ["NR"]. *)
Definition contentRating (mediaInfo : option MediaInfo) : string :=
  match usReleaseInfo mediaInfo with
  | Some releaseInfo =>
      match rating releaseInfo with
      | Some r => if JS.truthy r then r else "NR"
      | None => "NR"
      end
  | None => "NR"
  end.

(** The content of the badge next to the title: what the user is shown as
    the certification of the media. *)
Definition certificationBadge (media : MediaItem) (mediaInfo : option MediaInfo) : Slot :=
  if String.eqb (type media) "movie"
  then
    let c := displayCertification mediaInfo in
    if JS.truthy c then Text c else Skeleton
  else Text (contentRating mediaInfo).

End WithDate.

(** ** A reference instance of the time value

    The Date Time String Format of ECMA-262: the date-only forms [YYYY],
    [YYYY-MM] and [YYYY-MM-DD], read as UTC, and the date-time forms, a
    date-only form followed by [THH:mm], [THH:mm:ss] or [THH:mm:ss.sss] and
    by [Z], by an offset [+HH:mm] or [-HH:mm], or by nothing.  A date-time
    without offset is local time: the host's time zone is taken to be UTC.
    A string outside the format, or with a field out of its bounds, is an
    invalid date, as the standard prescribes; the legacy formats an engine
    may accept beyond the standard (and the expanded years, and the hour
    24) are not covered.  The statements below hold for every time-value
    function; this one serves the concrete cases. *)

Module IsoDate.

Definition digit (c : ascii) : option Z :=
  let n := Z.of_nat (nat_of_ascii c) in
  if (48 <=? n) && (n <=? 57) then Some (n - 48) else None.

(** The value of a field of decimal digits, most significant first. *)
Fixpoint field (acc : Z) (cs : list ascii) : option Z :=
  match cs with
  | [] => Some acc
  | c :: tl =>
      match digit c with
      | Some d => field (10 * acc + d) tl
      | None => None
      end
  end.

Definition isLeap (y : Z) : bool :=
  ((y mod 4 =? 0) && negb (y mod 100 =? 0)) || (y mod 400 =? 0).

Definition daysInMonth (y m : Z) : Z :=
  if m =? 2 then (if isLeap y then 29 else 28)
  else if (m =? 4) || (m =? 6) || (m =? 9) || (m =? 11) then 30
  else 31.

(** [DayFromYear]: the day number of the first day of year [y]. *)
Definition dayFromYear (y : Z) : Z :=
  365 * (y - 1970) + (y - 1969) / 4 - (y - 1901) / 100 + (y - 1601) / 400.

(** Days of year [y] before the first day of month [m]. *)
Definition daysBeforeMonth (y m : Z) : Z :=
  fold_left (fun acc k => acc + daysInMonth y (Z.of_nat k))
            (seq 1 (Z.to_nat (m - 1))) 0.

Definition msPerDay : Z := 86400000.

Definition makeDate (y m d : Z) : option Z :=
  if (1 <=? m) && (m <=? 12) && (1 <=? d) && (d <=? daysInMonth y m)
  then Some ((dayFromYear y + daysBeforeMonth y m + (d - 1)) * msPerDay)
  else None.

Definition makeTime (h mi s ms : Z) : option Z :=
  if (h <=? 23) && (mi <=? 59) && (s <=? 59)
  then Some (((h * 60 + mi) * 60 + s) * 1000 + ms)
  else None.

(** Two decimal digits. *)
Definition two (cs : list ascii) : option (Z * list ascii) :=
  match cs with
  | a :: b :: rest =>
      match field 0 [a; b] with
      | Some n => Some (n, rest)
      | None => None
      end
  | _ => None
  end.

Definition dated (y m d : Z) (rest : list ascii) : option (Z * list ascii) :=
  match makeDate y m d with
  | Some t => Some (t, rest)
  | None => None
  end.

(** A date-only form, and what follows it. *)
Definition parseDate (cs : list ascii) : option (Z * list ascii) :=
  match cs with
  | y1 :: y2 :: y3 :: y4 :: rest =>
      match field 0 [y1; y2; y3; y4] with
      | Some y =>
          match rest with
          | "-"%char :: m1 :: m2 :: rest1 =>
              match field 0 [m1; m2] with
              | Some m =>
                  match rest1 with
                  | "-"%char :: d1 :: d2 :: rest2 =>
                      match field 0 [d1; d2] with
                      | Some d => dated y m d rest2
                      | None => None
                      end
                  | _ => dated y m 1 rest1
                  end
              | None => None
              end
          | _ => dated y 1 1 rest
          end
      | None => None
      end
  | _ => None
  end.

(** The optional [:ss] and [.sss] of a time form. *)
Definition parseSeconds (cs : list ascii) : option (Z * Z * list ascii) :=
  match cs with
  | ":"%char :: rest =>
      match two rest with
      | Some (s, "."%char :: f1 :: f2 :: f3 :: rest1) =>
          match field 0 [f1; f2; f3] with
          | Some ms => Some (s, ms, rest1)
          | None => None
          end
      | Some (s, rest1) => Some (s, 0, rest1)
      | None => None
      end
  | _ => Some (0, 0, cs)
  end.

(** The offset that ends a date-time form, in minutes east of UTC. *)
Definition parseOffset (cs : list ascii) : option Z :=
  match cs with
  | [] => Some 0
  | [ "Z"%char ] => Some 0
  | sign :: rest =>
      match two rest with
      | Some (h, ":"%char :: rest1) =>
          match two rest1 with
          | Some (m, []) =>
              if (h <=? 23) && (m <=? 59)
              then if Ascii.eqb sign "+" then Some (h * 60 + m)
                   else if Ascii.eqb sign "-" then Some (- (h * 60 + m))
                        else None
              else None
          | _ => None
          end
      | _ => None
      end
  end.

(** A time form with its offset: the milliseconds to add to the date. *)
Definition parseTime (cs : list ascii) : option Z :=
  match cs with
  | "T"%char :: rest =>
      match two rest with
      | Some (h, ":"%char :: rest1) =>
          match two rest1 with
          | Some (mi, rest2) =>
              match parseSeconds rest2 with
              | Some (s, ms, rest3) =>
                  match makeTime h mi s ms, parseOffset rest3 with
                  | Some u, Some east => Some (u - east * 60000)
                  | _, _ => None
                  end
              | None => None
              end
          | None => None
          end
      | _ => None
      end
  | _ => None
  end.

Definition timeValue (s : string) : option Z :=
  match parseDate (list_ascii_of_string s) with
  | Some (t, []) => Some t
  | Some (t, rest) =>
      match parseTime rest with
      | Some u => Some (t + u)
      | None => None
      end
  | None => None
  end.

End IsoDate.

(** ** The star row *)

Inductive Icons :=
| STAR
| STAR_BORDER
| PLAY.

(** [data?.vote_average]. *)
Definition vote_average_of (data : option MediaData) : option Q :=
  match data with
  | Some d => vote_average d
  | None => None
  end.

(** [Math.round (Number (data?.vote_average) / 2)]. *)
Definition starCount (data : option MediaData) : option Z :=
  JS.Math_round (JS.half (JS.Number_of (vote_average_of data))).

(** [Array.from ({ length: 5 }, (_, index) => ...)]: five icons, the one at
    [index] filled when [index] is below the star count. *)
Definition starRow (data : option MediaData) : list Icons :=
  map (fun index =>
         if JS.lt_number (Z.of_nat index) (starCount data)
         then STAR else STAR_BORDER)
      (seq 0 5).

Definition isFilled (i : Icons) : bool :=
  match i with
  | STAR => true
  | _ => false
  end.

(** The number of filled stars of a row. *)
Definition filledStars (row : list Icons) : nat :=
  List.length (filter isFilled row).

(** Rounding to the nearest integer, halves up, as the specification
    writes [round]. *)
Definition round_half_up (q : Q) : Z := Qfloor (q + (1 # 2))%Q.

(** ** The watch action *)

(** What the component asks of its collaborators. *)
Inductive Action :=
| Navigate (path : string)
| CallOnClose (callback : nat).

Definition isTVShow (media : MediaItem) : bool := String.eqb (type media) "show".

(** The route of the template literal handed to [navigate]. *)
Definition watchRoute (media : MediaItem) : string :=
  "/media/tmdb-" ++ (if isTVShow media then "tv" else "movie")
    ++ "-" ++ id media ++ "-" ++ title media.

(** The [onClick] of the watch button. *)
Definition watch_onClick (media : MediaItem) : list Action :=
  [Navigate (watchRoute media)].

(** The route as the specification words it: the media type, the id and
    the display title joined by dashes. *)
Definition watchRoute_spec (media : MediaItem) : string :=
  type media ++ "-" ++ id media ++ "-" ++ title media.

(** [s] ends with [suffix]. *)
Definition endsWith (s suffix : string) : bool :=
  let n := String.length s in
  let k := String.length suffix in
  (k <=? n)%nat && String.eqb (substring (n - k) k s) suffix.

(** ** Props and state of the component *)

(** [PopupModalProps]; the [onClose] callback is known by its identity.
    ([playingTitle] is never read by the component.) *)
Record Props := mkProps {
  isVisible : bool;
  onClose : nat;
  media : MediaItem
}.

Inductive Visibility :=
| visible
| hidden.

(** [StyleState]; an absent [visibility] is [None]. *)
Record StyleState := mkStyle {
  opacity : Z;
  visibility : option Visibility
}.

(** The four [useState] slots. *)
Record State := mkState {
  style : StyleState;
  data : option MediaData;
  mediaInfo : option MediaInfo;
  error : option string
}.

Definition initialState : State :=
  {| style := {| opacity := 0; visibility := Some hidden |};
     data := None; mediaInfo := None; error := None |}.

Definition setStyle (s : StyleState) (st : State) : State :=
  {| style := s; data := data st; mediaInfo := mediaInfo st; error := error st |}.

Definition setData (d : option MediaData) (st : State) : State :=
  {| style := style st; data := d; mediaInfo := mediaInfo st; error := error st |}.

Definition setMediaInfo (m : option MediaInfo) (st : State) : State :=
  {| style := style st; data := data st; mediaInfo := m; error := error st |}.

Definition setError (e : option string) (st : State) : State :=
  {| style := style st; data := data st; mediaInfo := mediaInfo st; error := e |}.

(** The effect on [isVisible]: the transition style follows the flag. *)
Definition styleEffect (props : Props) (st : State) : State :=
  if isVisible props
  then setStyle {| opacity := 1; visibility := Some visible |} st
  else setStyle {| opacity := 0; visibility := Some hidden |} st.

(** ** The two fetches *)

(** A call of the [get] collaborator: the path and the query object. *)
Record Request := mkRequest {
  path : string;
  api_key : string;
  language : string
}.

(** How a call of [get] settles. *)
Inductive Outcome (A : Type) :=
| Resolved (result : A)
| Rejected.
Arguments Resolved {A} result.
Arguments Rejected {A}.

Section WithConfig.

(** [conf ().TMDB_READ_API_KEY] (declared in [@/setup/config]). *)
Variable TMDB_READ_API_KEY : string.

(** The request [fetchData] issues, if any. *)
Definition fetchData_request (props : Props) : option Request :=
  if negb (isVisible props) then None
  else
    let mediaTypePath :=
      if String.eqb (type (media props)) "show" then "tv" else type (media props) in
    Some {| path := "/" ++ mediaTypePath ++ "/" ++ id (media props);
            api_key := TMDB_READ_API_KEY;
            language := "en-US" |}.

(** The request [fetchContentRatingsOrReleaseDates] issues, if any. *)
Definition fetchContentRatingsOrReleaseDates_request (props : Props)
  : option Request :=
  if negb (isVisible props)
     || (negb (String.eqb (type (media props)) "show")
         && negb (String.eqb (type (media props)) "movie"))
  then None
  else
    let mediaTypeForAPI :=
      if String.eqb (type (media props)) "show" then "tv" else type (media props) in
    let endpointSuffix :=
      if String.eqb (type (media props)) "show"
      then "content_ratings" else "release_dates" in
    Some {| path := "/" ++ mediaTypeForAPI ++ "/" ++ id (media props)
                      ++ "/" ++ endpointSuffix;
            api_key := TMDB_READ_API_KEY;
            language := "en-US" |}.

(** The dependency array [media.id, media.type, isVisible] of both fetch
    effects: an effect runs on mount and whenever one of the three differs
    from the previous render. *)
Definition depsChanged (previous : option Props) (props : Props) : bool :=
  match previous with
  | None => true
  | Some old =>
      negb (String.eqb (id (media old)) (id (media props))
            && String.eqb (type (media old)) (type (media props))
            && Bool.eqb (isVisible old) (isVisible props))
  end.

Definition issued (r : option Request) : list Request :=
  match r with
  | Some q => [q]
  | None => []
  end.

(** The calls of [get] a render gives rise to, in effect order. *)
Definition fetchEffects (previous : option Props) (props : Props) : list Request :=
  if depsChanged previous props
  then (issued (fetchData_request props)
        ++ issued (fetchContentRatingsOrReleaseDates_request props))%list
  else [].

End WithConfig.

(** The continuation of [fetchData] once its request has settled: the
    [try] body after the [await], or the [catch] block. *)
Definition fetchData_settled (o : Outcome MediaData) (st : State) : State :=
  match o with
  | Resolved result => setError None (setData (Some result) st)
  | Rejected => setError (Some "Failed to fetch media data") st
  end.

(** The continuation of [fetchContentRatingsOrReleaseDates]. *)
Definition fetchContentRatingsOrReleaseDates_settled
  (o : Outcome MediaInfo) (st : State) : State :=
  match o with
  | Resolved result => setError None (setMediaInfo (Some result) st)
  | Rejected =>
      setError (Some "Failed to fetch content ratings or release dates") st
  end.

(** The settling of one of the two fetches, as an event of the component. *)
Inductive FetchEvent :=
| DataSettled (o : Outcome MediaData)
| InfoSettled (o : Outcome MediaInfo).

Definition settle (e : FetchEvent) (st : State) : State :=
  match e with
  | DataSettled o => fetchData_settled o st
  | InfoSettled o => fetchContentRatingsOrReleaseDates_settled o st
  end.

(** The state after a sequence of settlings, in their order of arrival. *)
Definition settleAll (es : list FetchEvent) (st : State) : State :=
  fold_left (fun s e => settle e s) es st.

Definition isSuccess (e : FetchEvent) : bool :=
  match e with
  | DataSettled (Resolved _) | InfoSettled (Resolved _) => true
  | _ => false
  end.

(** The message recorded by the [catch] block of the fetch that failed. *)
Definition failureMessage (e : FetchEvent) : option string :=
  match e with
  | DataSettled Rejected => Some "Failed to fetch media data"
  | InfoSettled Rejected =>
      Some "Failed to fetch content ratings or release dates"
  | _ => None
  end.

(** ** Rendering *)

(** [String (s).split ("-")[0]]: the text before the first dash. *)
Fixpoint beforeDash (s : string) : string :=
  match s with
  | EmptyString => EmptyString
  | String c tl => if Ascii.eqb c "-" then EmptyString else String c (beforeDash tl)
  end.

(** [a || b] on optional strings. *)
Definition orElse (a b : option string) : option string :=
  if JS.truthy_opt a then a else b.

(** A field of the optional metadata: [data?.f]. *)
Definition field_of {A} (f : MediaData -> option A) (data : option MediaData)
  : option A :=
  match data with
  | Some d => f d
  | None => None
  end.

(** A text slot for a truthy string, the placeholder otherwise. *)
Definition textOrSkeleton (o : option string) (show : string -> string) : Slot :=
  match o with
  | Some s => if JS.truthy s then Text (show s) else Skeleton
  | None => Skeleton
  end.

(** The overlay body: the data-bearing parts of the element tree. *)
Record Body := mkBody {
  b_backdrop : Slot;
  b_heading : Slot;
  b_certification : Slot;
  b_runtime : option Slot;
  b_year : option Slot;
  b_stars : list Icons;
  b_genres : list Slot;
  b_overview : option string;
  b_episodeSelector : option (string * string);
  b_watch : list Action
}.

(** What the component returns: nothing, the error line, or the overlay. *)
Inductive View :=
| NullView
| ErrorView (text : string)
| OverlayView (body : Body).

Section WithDateRender.

Variable timeValue : string -> option Z.

Definition renderBody (props : Props) (st : State) : Body :=
  let m := media props in
  let d := data st in
  let isMovie := String.eqb (type m) "movie" in
  {| b_backdrop :=
       textOrSkeleton (field_of backdrop_path d)
         (fun p => "https://image.tmdb.org/t/p/original/" ++ p);
     b_heading :=
       textOrSkeleton (orElse (field_of md_title d) (field_of name d))
         (fun s => s);
     b_certification := certificationBadge timeValue m (mediaInfo st);
     b_runtime :=
       if isMovie
       then Some match field_of runtime d with
                 | Some r => if r =? 0 then Skeleton else Text (formatRuntime r)
                 | None => Skeleton
                 end
       else None;
     b_year :=
       if isMovie
       then Some (textOrSkeleton (field_of release_date_md d) beforeDash)
       else if isTVShow m
            then Some (textOrSkeleton (field_of first_air_date d) beforeDash)
            else None;
     b_stars := starRow d;
     b_genres :=
       match field_of genres d with
       | Some (g :: gs) => map Text (g :: gs)
       | _ => [Skeleton; Skeleton; Skeleton]
       end;
     b_overview := field_of overview d;
     b_episodeSelector := if isTVShow m then Some (id m, title m) else None;
     b_watch := watch_onClick m |}.

(** The render function of the component. *)
Definition render (props : Props) (st : State) : View :=
  if negb (isVisible props)
     && match visibility (style st) with Some hidden => true | _ => false end
  then NullView
  else if JS.truthy_opt (error st)
       then ErrorView ("Error: " ++ match error st with Some e => e | None => "" end)
       else OverlayView (renderBody props st).

End WithDateRender.

(** The first test of the render function: the component is invisible and
    its transition style has caught up. *)
Definition isHidden (props : Props) (st : State) : bool :=
  negb (isVisible props)
  && match visibility (style st) with Some hidden => true | _ => false end.

Definition isErrorView (v : View) : bool :=
  match v with
  | ErrorView _ => true
  | _ => false
  end.

(** ** The outside-click subscription *)

(** A DOM subtree: an element, known by its key, and its children. *)
Inductive DomNode :=
| Element (key : nat) (children : list DomNode).

Definition key_of (n : DomNode) : nat :=
  match n with
  | Element k _ => k
  end.

(** [n.contains (target)]: the target is [n] or one of its descendants. *)
Fixpoint contains (n : DomNode) (target : nat) : bool :=
  match n with
  | Element k children =>
      Nat.eqb k target || existsb (fun c => contains c target) children
  end.

(** A [handleClickOutside] closure: its identity as a function object and
    the [onClose] it captured. *)
Record Listener := mkListener {
  l_id : nat;
  l_onClose : nat
}.

(** The mounted instance and the document it subscribed to. *)
Record World := mkWorld {
  mousedown : list Listener;      (* the document's listeners, in order *)
  modalRef : option DomNode;      (* modalRef.current *)
  subscribed : option Listener;   (* the listener the last effect run added *)
  current : option Props;         (* the props of the last render, if mounted *)
  fresh : nat                     (* the next function identity *)
}.

Definition emptyWorld : World :=
  {| mousedown := []; modalRef := None; subscribed := None;
     current := None; fresh := 0 |}.

(** [document.addEventListener ("mousedown", l)]: a listener already
    present is not added a second time. *)
Definition addEventListener (l : Listener) (ls : list Listener) : list Listener :=
  if existsb (fun x => Nat.eqb (l_id x) (l_id l)) ls then ls else ls ++ [l].

(** [document.removeEventListener ("mousedown", l)]. *)
Definition removeEventListener (l : Listener) (ls : list Listener) : list Listener :=
  filter (fun x => negb (Nat.eqb (l_id x) (l_id l))) ls.

(** [handleClickOutside]: the calls it makes for an event on [target]. *)
Definition handleClickOutside (l : Listener) (modalRef : option DomNode)
  (target : nat) : list Action :=
  match modalRef with
  | Some cur =>
      if negb (contains cur target) then [CallOnClose (l_onClose l)] else []
  | None => []
  end.

(** The cleanup of the subscription effect. *)
Definition cleanup (w : World) : World :=
  match subscribed w with
  | Some l =>
      {| mousedown := removeEventListener l (mousedown w);
         modalRef := modalRef w; subscribed := None;
         current := current w; fresh := fresh w |}
  | None => w
  end.

(** The body of the subscription effect, run for the props given. *)
Definition subscribe (props : Props) (w : World) : World :=
  let l := {| l_id := fresh w; l_onClose := onClose props |} in
  {| mousedown := addEventListener l (mousedown w);
     modalRef := modalRef w; subscribed := Some l;
     current := current w; fresh := S (fresh w) |}.

(** [useEffect (..., [onClose])]: on mount the effect runs; on a later
    render it runs again, after the cleanup, when [onClose] has changed. *)
Definition subscriptionEffect (props : Props) (w : World) : World :=
  match current w with
  | None => subscribe props w
  | Some old =>
      if Nat.eqb (onClose old) (onClose props) then w
      else subscribe props (cleanup w)
  end.

(** The ref after a commit: the panel when the overlay was rendered, [null]
    when the component returned nothing or the error line. *)
Definition attachRef (v : View) (panel : DomNode) : option DomNode :=
  match v with
  | OverlayView _ => Some panel
  | _ => None
  end.

(** A commit of the component: it rendered [v] for [props], the panel of
    the overlay being [panel] in the document. *)
Definition commit (props : Props) (v : View) (panel : DomNode) (w : World) : World :=
  let w1 := subscriptionEffect props w in
  {| mousedown := mousedown w1;
     modalRef := attachRef v panel;
     subscribed := subscribed w1;
     current := Some props;
     fresh := fresh w1 |}.

(** Unmounting: the cleanup runs and the ref is cleared. *)
Definition unmount (w : World) : World :=
  let w1 := cleanup w in
  {| mousedown := mousedown w1; modalRef := None; subscribed := None;
     current := None; fresh := fresh w1 |}.

(** The dispatch of a [mousedown] event on [target]: every listener of the
    document runs, in order. *)
Definition dispatchMousedown (target : nat) (w : World) : list Action :=
  flat_map (fun l => handleClickOutside l (modalRef w) target) (mousedown w).

(** A history of commits of one mounted instance, the first one being the
    mount. *)
Fixpoint commits (h : list (Props * View * DomNode)) (w : World) : World :=
  match h with
  | [] => w
  | (props, v, panel) :: tl => commits tl (commit props v panel w)
  end.

(** The number of calls of the callback [cb] among the actions. *)
Definition callsOf (cb : nat) (acts : list Action) : nat :=
  List.length (filter (fun a => match a with
                                | CallOnClose c => Nat.eqb c cb
                                | _ => false
                                end) acts).

(** While the instance is mounted the document holds exactly one of its
    listeners, the one of the last effect run, and that listener captured
    the [onClose] of the last render; before the mount it holds none. *)
Definition Subscribed (w : World) : Prop :=
  match current w with
  | Some props =>
      exists l, mousedown w = [l] /\ subscribed w = Some l
                /\ l_onClose l = onClose props
  | None => mousedown w = [] /\ subscribed w = None
  end.

(** ** The certification as the specification words it *)

(** The entries of a certification response; none when the response or
    its [results] field is missing. *)
Definition resultsOf (mediaInfo : option MediaInfo) : list RegionResult :=
  match mediaInfo with
  | Some mi =>
      match results mi with
      | Some rs => rs
      | None => []
      end
  | None => []
  end.

(** The entries of the response for the fixed region. *)
Definition usEntries (mediaInfo : option MediaInfo) : list RegionResult :=
  filter (fun r => String.eqb (iso_3166_1 r) "US") (resultsOf mediaInfo).

(** The entries for the other regions. *)
Definition otherEntries (mediaInfo : option MediaInfo) : list RegionResult :=
  filter (fun r => negb (String.eqb (iso_3166_1 r) "US")) (resultsOf mediaInfo).

(** The US entry of the response: the first one, if there are several. *)
Definition usEntry (mediaInfo : option MediaInfo) : option RegionResult :=
  hd_error (usEntries mediaInfo).

(** The release entries of a region entry that carry a certification
    label, in iteration order. *)
Definition certifiedOf (r : RegionResult) : list ReleaseDate :=
  match release_dates r with
  | Some ds => filter (fun d => negb (String.eqb (certification d) "")) ds
  | None => []
  end.

(** The entry [e] at index [i] of [l] has the latest release date of [l],
    and is the last one of those that share it: its date is valid, no
    dated entry is later, and every dated entry after it is strictly
    earlier. *)
Definition LatestLast (timeValue : string -> option Z)
  (l : list ReleaseDate) (i : nat) (e : ReleaseDate) : Prop :=
  nth_error l i = Some e
  /\ exists t, timeValue (release_date e) = Some t
     /\ forall j e' t',
          nth_error l j = Some e' ->
          timeValue (release_date e') = Some t' ->
          t' <= t /\ ((i < j)%nat -> t' < t).

(** Every entry of [l] has a valid release date. *)
Definition AllDated (timeValue : string -> option Z) (l : list ReleaseDate) : Prop :=
  forall e, In e l -> timeValue (release_date e) <> None.

(** ** Sample values *)

Definition theMatrix : MediaItem :=
  {| id := "603"; type := "movie"; title := "The Matrix"; poster := None |}.

Definition gameOfThrones : MediaItem :=
  {| id := "1399"; type := "show"; title := "Game of Thrones"; poster := None |}.

Definition release (c d : string) : ReleaseDate :=
  {| certification := c; release_date := d |}.

Definition response (rs : list RegionResult) : option MediaInfo :=
  Some {| results := Some rs |}.

(** The US entry of a release-dates response: an unlabelled release and
    two labelled ones that share the latest date. *)
Definition matrixUS : RegionResult :=
  {| iso_3166_1 := "US"; rating := None;
     release_dates :=
       Some [ release "PG-13" "1999-03-24T00:00:00.000Z";
              release "" "2021-01-01T00:00:00.000Z";
              release "R" "1999-03-31T00:00:00.000Z";
              release "NC-17" "1999-03-31" ] |}.

Definition matrixReleases : option MediaInfo :=
  response
    [ {| iso_3166_1 := "FR"; rating := None;
         release_dates := Some [release "U" "2021-06-23T00:00:00.000Z"] |};
      matrixUS ].

(** The same US entry next to other regions. *)
Definition matrixReleasesAbroad : option MediaInfo :=
  response
    [ matrixUS;
      {| iso_3166_1 := "FR"; rating := Some "12";
         release_dates := Some [release "12" "2030-01-01T00:00:00.000Z"] |};
      {| iso_3166_1 := "DE"; rating := None; release_dates := None |} ].

(** A US entry whose middle release has an empty date string. *)
Definition undatedUS : RegionResult :=
  {| iso_3166_1 := "US"; rating := None;
     release_dates :=
       Some [ release "R" "2020-01-01T00:00:00.000Z";
              release "PG" "";
              release "G" "2019-01-01T00:00:00.000Z" ] |}.

Definition undatedReleases : option MediaInfo := response [undatedUS].

(** A US entry with one labelled release and no content rating. *)
Definition singleUS : RegionResult :=
  {| iso_3166_1 := "US"; rating := None;
     release_dates := Some [release "R" "2020-01-01T00:00:00.000Z"] |}.

Definition singleRelease : option MediaInfo := response [singleUS].

(** The US entry of a content-ratings response. *)
Definition thronesUS : RegionResult :=
  {| iso_3166_1 := "US"; rating := Some "TV-MA"; release_dates := None |}.

(** A content-ratings response, as the service answers for a show. *)
Definition thronesRatings : option MediaInfo :=
  response
    [ {| iso_3166_1 := "DE"; rating := Some "16"; release_dates := None |};
      thronesUS ].

(** A response without an entry for the US. *)
Definition abroadOnly : option MediaInfo :=
  response
    [ {| iso_3166_1 := "FR"; rating := Some "12";
         release_dates := Some [release "12" "2030-01-01T00:00:00.000Z"] |} ].

(** A metadata record that carries a vote average only. *)
Definition ratedData (v : Q) : MediaData :=
  {| backdrop_path := None; md_title := None; name := None; runtime := None;
     release_date_md := None; first_air_date := None; vote_average := Some v;
     genres := None; overview := None |}.

(** The overlay shown for a movie, and for a show. *)
Definition shownMovie : Props :=
  {| isVisible := true; onClose := 7; media := theMatrix |}.

Definition shownShow : Props :=
  {| isVisible := true; onClose := 7; media := gameOfThrones |}.

Definition hiddenMovie : Props :=
  {| isVisible := false; onClose := 7; media := theMatrix |}.

(** The state once the style effect has followed the flag. *)
Definition shownState : State := styleEffect shownMovie initialState.

(** A document: the page, the backdrop of the overlay and, inside it, the
    panel the ref is attached to, with the watch button. *)
Definition panelNode : DomNode := Element 3 [Element 4 []; Element 5 []].

Definition pageNode : DomNode :=
  Element 0 [Element 1 []; Element 2 [panelNode]].

(** A history: mounted invisible with one callback, then shown with
    another one. *)
Definition sampleHistory : list (Props * View * DomNode) :=
  [ ({| isVisible := false; onClose := 3; media := theMatrix |},
     NullView, panelNode) ].

(** The instance after that history and a commit of the shown overlay. *)
Definition sampleWorld : World :=
  commits (sampleHistory
             ++ [(shownMovie, render IsoDate.timeValue shownMovie shownState,
                  panelNode)])%list emptyWorld.

(** ** Auxiliary notions for the properties of the view *)

(** The last element of [l] on which [f] is defined, if any. *)
Fixpoint lastSome {A B} (f : A -> option B) (l : list A) : option B :=
  match l with
  | [] => None
  | a :: tl =>
      match lastSome f tl with
      | Some b => Some b
      | None => f a
      end
  end.

(** The primary metadata a settling delivers. *)
Definition resolvedData (e : FetchEvent) : option MediaData :=
  match e with
  | DataSettled (Resolved result) => Some result
  | _ => None
  end.

(** The certification response a settling delivers. *)
Definition resolvedInfo (e : FetchEvent) : option MediaInfo :=
  match e with
  | InfoSettled (Resolved result) => Some result
  | _ => None
  end.

(** [a] if it is there, [b] otherwise. *)
Definition orDefault {A} (a b : option A) : option A :=
  match a with
  | Some x => Some x
  | None => b
  end.

(** The string holds no dash. *)
Fixpoint noDash (s : string) : bool :=
  match s with
  | EmptyString => true
  | String c tl => negb (Ascii.eqb c "-") && noDash tl
  end.

(** Every listener of the document was created before the next function
    identity: the identity the next effect run takes is new. *)
Definition FreshIds (w : World) : Prop :=
  forall l, In l (mousedown w) -> (l_id l < fresh w)%nat.

(** Clamping a star count to the five icons of the row. *)
Definition clampStars (k : Z) : nat := Z.to_nat (Z.min 5 k).

(** A metadata record as the service answers for a movie. *)
Definition matrixData : MediaData :=
  {| backdrop_path := Some "fNG7i7RqMErkcqhohV2a6cV1Ehy.jpg";
     md_title := Some "The Matrix"; name := None; runtime := Some 136;
     release_date_md := Some ("1999" ++ String "-" "03-31");
     first_air_date := None; vote_average := Some (41 # 5);
     genres := Some ["Action"; "Science Fiction"];
     overview := Some "A hacker learns the truth." |}.

(** The element the component returns when it shows the overlay: the
    outer [div], whose child is the panel the ref is attached to. *)
Definition overlayRoot : DomNode := Element 2 [panelNode].

(** The element it returns when it shows the error line. *)
Definition errorLineNode : DomNode := Element 2 [].

(** The instance after the same history and a commit of the error line,
    the primary fetch having failed while the overlay is visible. *)
Definition errorWorld : World :=
  commits (sampleHistory
             ++ [(shownMovie,
                  render IsoDate.timeValue shownMovie
                    (fetchData_settled Rejected shownState),
                  panelNode)])%list emptyWorld.

(** * Properties *)

(** ** Runtime formatting *)

Example formatRuntime_125 : formatRuntime 125 = "2h 5m".
Proof. reflexivity. Qed.

Example formatRuntime_45 : formatRuntime 45 = "45m".
Proof. reflexivity. Qed.

Example formatRuntime_60 : formatRuntime 60 = "1h 0m".
Proof. reflexivity. Qed.

Example formatRuntime_0 : formatRuntime 0 = "0m".
Proof. reflexivity. Qed.

(** On a runtime that is not negative the [%] of JavaScript is the
    mathematical [mod]. *)
Lemma remainder_mod (r : Z) : 0 <= r -> JS.remainder r 60 = r mod 60.
Proof.
  intros Hr. unfold JS.remainder. apply Z.rem_mod_nonneg; lia.
Qed.

(** The hour segment is there exactly from sixty minutes on. *)
Lemma hours_positive (r : Z) : (0 <? JS.floor_div r 60) = (60 <=? r).
Proof.
  unfold JS.floor_div.
  destruct (Z.leb_spec 60 r) as [H | H].
  - apply Z.ltb_lt. apply Z.div_str_pos. lia.
  - apply Z.ltb_ge.
    destruct (Z.le_gt_cases 0 r) as [H0 | H0].
    + rewrite Z.div_small; lia.
    + assert (r / 60 < 0) by (apply Z.div_lt_upper_bound; lia). lia.
Qed.

(** C4, amended. For every runtime [r] that is a whole number of minutes
    with [0 <= r <= 2^53 - 1], [formatRuntime r] is
    ["{floor(r/60)}h {r mod 60}m"] when [floor (r/60)] is positive and
    ["{r mod 60}m"], with no hour segment, otherwise; 125 gives ["2h 5m"]
    and 45 gives ["45m"]. *)
Theorem formatRuntime_correct (r : Z) (Hr : 0 <= r <= JS.MAX_SAFE_INTEGER) :
  formatRuntime r = formatRuntime_spec r
  /\ formatRuntime 125 = "2h 5m"
  /\ formatRuntime 45 = "45m".
Proof.
  split; [| split; reflexivity].
  unfold formatRuntime, formatRuntime_spec.
  rewrite remainder_mod by apply Hr.
  reflexivity.
Qed.

Lemma formatRuntime_correct_witness :
  0 <= 125 <= JS.MAX_SAFE_INTEGER
  /\ formatRuntime 125 = formatRuntime_spec 125
  /\ formatRuntime_spec 125 = "2h 5m".
Proof.
  assert (H : 0 <= 125 <= JS.MAX_SAFE_INTEGER) by (unfold JS.MAX_SAFE_INTEGER; lia).
  split; [exact H |].
  split; [apply (formatRuntime_correct 125 H) | reflexivity].
Defined.

(** C4 fails as stated on a negative runtime: for -125 the hour count
    [floor (-125/60)] is -3, so the claim gives the minute count alone,
    [-125 mod 60 = 55], while the [%] of the code keeps the sign of the
    runtime and the text is ["-5m"]. *)
Lemma formatRuntime_correct_counterexample :
  (-125) / 60 = -3
  /\ (-125) mod 60 = 55
  /\ formatRuntime_spec (-125) = "55m"
  /\ formatRuntime (-125) = "-5m"
  /\ formatRuntime (-125) <> formatRuntime_spec (-125).
Proof.
  repeat split; discriminate.
Qed.

(** Below an hour the text is the minute count alone. *)
Lemma formatRuntime_minutes_only (r : Z) :
  0 <= r < 60 -> formatRuntime r = JS.Number_toString r ++ "m".
Proof.
  intros Hr. unfold formatRuntime.
  rewrite hours_positive.
  destruct (Z.leb_spec 60 r); [lia |].
  rewrite remainder_mod by lia. rewrite Z.mod_small by lia. reflexivity.
Qed.

(** A negative runtime (a safe integer) has no hour segment and keeps its
    sign: the [%] of JavaScript truncates. *)
Lemma formatRuntime_below_zero (r : Z) :
  r < 0 -> formatRuntime r = JS.Number_toString (Z.rem r 60) ++ "m".
Proof.
  intros Hr. unfold formatRuntime. rewrite hours_positive.
  destruct (Z.leb_spec 60 r); [lia | reflexivity].
Qed.

(** What the overlay of a movie shows for a runtime: the formatted text,
    and the placeholder while the runtime is missing or zero. *)
Lemma runtime_slot (timeValue : string -> option Z) (props : Props) (st : State)
  (d : MediaData) (r : Z) :
  type (media props) = "movie" -> data st = Some d -> runtime d = Some r ->
  b_runtime (renderBody timeValue props st)
  = Some (if r =? 0 then Skeleton else Text (formatRuntime r)).
Proof.
  intros Ht Hd Hr. unfold renderBody. cbn [b_runtime].
  rewrite Ht, Hd. cbn [String.eqb Ascii.eqb Bool.eqb field_of]. rewrite Hr.
  reflexivity.
Qed.

(** ** The star row *)

(** [Qfloor] is the only integer whose unit interval holds the number. *)
Lemma Qfloor_unique (q : Q) (n : Z) :
  (inject_Z n <= q)%Q -> (q < inject_Z (n + 1))%Q -> Qfloor q = n.
Proof.
  intros Hlo Hhi.
  assert (H1 : n <= Qfloor q).
  { rewrite <- (Qfloor_Z n). apply Qfloor_resp_le. exact Hlo. }
  assert (H2 : Qfloor q < n + 1).
  { destruct (Z.lt_ge_cases (Qfloor q) (n + 1)) as [H | H]; [exact H |].
    exfalso. apply (Qlt_not_le _ _ Hhi).
    apply Qle_trans with (inject_Z (Qfloor q)).
    - rewrite <- Zle_Qle. exact H.
    - apply Qfloor_le. }
  lia.
Qed.

(** [Math.round] is rounding to the nearest integer with halves up. *)
Lemma Math_round_half_up (q : Q) :
  JS.Math_round (Some q) = Some (round_half_up q).
Proof.
  unfold JS.Math_round, round_half_up.
  pose proof (Qfloor_le q) as Hlo.
  pose proof (Qlt_floor q) as Hhi.
  set (f := Qfloor q) in *.
  destruct (Qle_bool (1 # 2) (q - inject_Z f)) eqn:E.
  - apply Qle_bool_iff in E. f_equal. symmetry. apply Qfloor_unique.
    + rewrite inject_Z_plus. 
      apply Qle_trans with (inject_Z f + (q - inject_Z f) + (1 # 2))%Q.
      * setoid_replace (inject_Z f + inject_Z 1)%Q
          with (inject_Z f + (1 # 2) + (1 # 2))%Q by (unfold inject_Z; ring).
        setoid_replace (inject_Z f + (q - inject_Z f) + (1 # 2))%Q
          with (inject_Z f + (1 # 2) + (q - inject_Z f))%Q by ring.
        apply Qplus_le_r. exact E.
      * apply Qle_lteq. right. ring.
    + rewrite inject_Z_plus in Hhi |- *. rewrite inject_Z_plus.
      apply Qlt_le_trans with (inject_Z f + inject_Z 1 + (1 # 2))%Q.
      * apply Qplus_lt_l. exact Hhi.
      * apply Qplus_le_r. unfold inject_Z, Qle. simpl. lia.
  - assert (E' : (q - inject_Z f < 1 # 2)%Q).
    { apply Qnot_le_lt. intro H. apply Qle_bool_iff in H. congruence. }
    f_equal. symmetry. apply Qfloor_unique.
    + apply Qle_trans with q; [exact Hlo |].
      setoid_replace q with (q + 0)%Q at 1 by ring.
      apply Qplus_le_r. unfold Qle. simpl. lia.
    + rewrite inject_Z_plus.
      setoid_replace (q + (1 # 2))%Q
        with (inject_Z f + ((q - inject_Z f) + (1 # 2)))%Q by ring.
      apply Qplus_lt_r.
      setoid_replace (inject_Z 1) with ((1 # 2) + (1 # 2))%Q
        by (unfold inject_Z; ring).
      apply Qplus_lt_l. exact E'.
Qed.

(** A row of five icons of which the first [k] are filled has [k] filled
    stars. *)
Lemma filledStars_count (k : Z) :
  0 <= k <= 5 ->
  filledStars (map (fun index =>
                      if JS.lt_number (Z.of_nat index) (Some k)
                      then STAR else STAR_BORDER) (seq 0 5))
  = Z.to_nat k.
Proof.
  intros Hk.
  assert (Hc : k = 0 \/ k = 1 \/ k = 2 \/ k = 3 \/ k = 4 \/ k = 5) by lia.
  destruct Hc as [-> | [-> | [-> | [-> | [-> | ->]]]]]; reflexivity.
Qed.

(** The star count of a vote average between 0 and 10 lies between 0
    and 5. *)
Lemma round_half_range (v : Q) :
  (0 <= v)%Q -> (v <= 10)%Q -> 0 <= round_half_up (v / 2) <= 5.
Proof.
  intros H0 H10. unfold round_half_up. split.
  - change 0 with (Qfloor 0). apply Qfloor_resp_le.
    apply Qle_trans with (0 / 2 + 0)%Q; [unfold Qle; simpl; lia |].
    apply Qplus_le_compat; [| unfold Qle; simpl; lia].
    apply Qmult_le_compat_r; [exact H0 | unfold Qle; simpl; lia].
  - change 5 with (Qfloor (10 / 2 + (1 # 2))).
    apply Qfloor_resp_le. apply Qplus_le_l.
    apply Qmult_le_compat_r; [exact H10 | unfold Qle; simpl; lia].
Qed.

Lemma round_half_up_comp (p q : Q) : (p == q)%Q -> round_half_up p = round_half_up q.
Proof.
  intros H. unfold round_half_up. apply Qfloor_comp. rewrite H. reflexivity.
Qed.

(** C5. For every vote average [v] between 0 and 10, the row has five
    stars of which [round (v / 2)] (halves up) are filled, the filled ones
    first; a vote average of 7 fills exactly four. *)
Theorem starRow_filled (d : MediaData) (v : Q)
  (Hv : vote_average d = Some v) (H0 : (0 <= v)%Q) (H10 : (v <= 10)%Q) :
  List.length (starRow (Some d)) = 5%nat
  /\ filledStars (starRow (Some d)) = Z.to_nat (round_half_up (v / 2))
  /\ starRow (Some d)
     = (repeat STAR (Z.to_nat (round_half_up (v / 2)))
          ++ repeat STAR_BORDER (5 - Z.to_nat (round_half_up (v / 2))))%list
  /\ ((v == 7)%Q -> filledStars (starRow (Some d)) = 4%nat).
Proof.
  pose proof (round_half_range v H0 H10) as Hr.
  assert (Hs : starCount (Some d) = Some (round_half_up (v / 2))).
  { unfold starCount, JS.Number_of, JS.half. cbn [vote_average_of].
    rewrite Hv. apply Math_round_half_up. }
  assert (Hf : filledStars (starRow (Some d)) = Z.to_nat (round_half_up (v / 2))).
  { unfold starRow. rewrite Hs. apply filledStars_count. exact Hr. }
  split; [reflexivity |].
  split; [exact Hf |].
  split.
  - unfold starRow. rewrite Hs.
    set (k := round_half_up (v / 2)) in *.
    assert (Hc : k = 0 \/ k = 1 \/ k = 2 \/ k = 3 \/ k = 4 \/ k = 5) by lia.
    destruct Hc as [-> | [-> | [-> | [-> | [-> | ->]]]]]; reflexivity.
  - intros H7. rewrite Hf.
    rewrite (round_half_up_comp (v / 2) (7 / 2)) by (rewrite H7; reflexivity).
    reflexivity.
Qed.

Lemma starRow_filled_witness :
  starRow (Some (ratedData 7)) = [STAR; STAR; STAR; STAR; STAR_BORDER]
  /\ filledStars (starRow (Some (ratedData 7))) = 4%nat.
Proof.
  assert (H0 : (0 <= 7)%Q) by (unfold Qle; simpl; lia).
  assert (H10 : (7 <= 10)%Q) by (unfold Qle; simpl; lia).
  destruct (starRow_filled (ratedData 7) 7 eq_refl H0 H10) as (_ & _ & Hrow & H7).
  split; [exact Hrow | apply H7; reflexivity].
Defined.

(** Without a vote average the star count is [NaN] and no star is filled. *)
Lemma starRow_undefined :
  starRow None = repeat STAR_BORDER 5 /\
  forall d, vote_average d = None -> starRow (Some d) = repeat STAR_BORDER 5.
Proof.
  split; [reflexivity |].
  intros d Hd. unfold starRow, starCount. cbn [vote_average_of]. rewrite Hd.
  reflexivity.
Qed.

(** ** The certification badge *)

Lemma truthy_nonempty (s : string) : JS.truthy s = negb (String.eqb s "").
Proof. destruct s; reflexivity. Qed.

Lemma truthy_true (s : string) : JS.truthy s = true <-> s <> "".
Proof. destruct s; simpl; split; congruence. Qed.

(** [find] returns the head of the matching elements. *)
Lemma find_hd_filter {A} (p : A -> bool) (l : list A) :
  JS.find p l = hd_error (filter p l).
Proof.
  unfold JS.find. induction l as [| a l IH]; simpl; [reflexivity |].
  destruct (p a); [reflexivity | exact IH].
Qed.

(** The entry the component reads is the US entry of the response. *)
Lemma usReleaseInfo_usEntry (mi : option MediaInfo) :
  usReleaseInfo mi = usEntry mi.
Proof.
  unfold usReleaseInfo, usEntry, usEntries, resultsOf.
  destruct mi as [[[rs |]] |]; simpl; try reflexivity.
  apply find_hd_filter.
Qed.

(** The releases the component retains are the labelled ones of the US
    entry. *)
Lemma certifiedReleases_usEntry (mi : option MediaInfo) :
  certifiedReleases mi
  = match usEntry mi with
    | Some us => certifiedOf us
    | None => []
    end.
Proof.
  unfold certifiedReleases. rewrite usReleaseInfo_usEntry.
  destruct (usEntry mi) as [us |]; [| reflexivity].
  unfold certifiedOf. destruct (release_dates us) as [ds |]; [| reflexivity].
  apply filter_ext. intros d. apply truthy_nonempty.
Qed.

Lemma certification_retained (mi : option MediaInfo) (e : ReleaseDate) :
  In e (certifiedReleases mi) -> JS.truthy (certification e) = true.
Proof.
  unfold certifiedReleases.
  destruct (usReleaseInfo mi) as [us |]; [| intros []].
  destruct (release_dates us) as [ds |]; [| intros []].
  intros H. apply filter_In in H. tauto.
Qed.

Section Latest.

Variable timeValue : string -> option Z.

Lemma date_gt_true (a b : ReleaseDate) (ta tb : Z) :
  timeValue (release_date a) = Some ta ->
  timeValue (release_date b) = Some tb ->
  date_gt timeValue (release_date a) (release_date b) = (tb <? ta).
Proof.
  intros Ha Hb. unfold date_gt. rewrite Ha, Hb. reflexivity.
Qed.

(** The [reduce] of the component, over a list of dated releases, ends on
    the last of the releases with the latest date. *)
Lemma reduce_latest_last (l : list ReleaseDate) (x : ReleaseDate) :
  AllDated timeValue (x :: l) ->
  exists i, LatestLast timeValue (x :: l) i (fold_left (laterRelease timeValue) l x).
Proof.
  induction l as [| y l IH] using rev_ind; intros Hd.
  - exists 0%nat. cbn [fold_left]. split; [reflexivity |].
    destruct (timeValue (release_date x)) as [t |] eqn:Ht.
    + exists t. split; [reflexivity |].
      intros [| j] e' t' Hn He'; simpl in Hn.
      * injection Hn as <-. rewrite Ht in He'. injection He' as <-. lia.
      * destruct j; discriminate.
    + exfalso. apply (Hd x); [left; reflexivity | exact Ht].
  - assert (Hd' : AllDated timeValue (x :: l)).
    { intros e He. apply Hd. destruct He as [-> | He]; [left; reflexivity |].
      right. apply in_or_app. left. exact He. }
    destruct (IH Hd') as (i & Hi & t & Ht & Hmax).
    rewrite fold_left_app. cbn [fold_left].
    set (r := fold_left (laterRelease timeValue) l x) in *.
    destruct (timeValue (release_date y)) as [ty |] eqn:Hy.
    2:{ exfalso. apply (Hd y); [| exact Hy].
        right. apply in_or_app. right. left. reflexivity. }
    assert (Hlen : nth_error ((x :: l) ++ [y])%list (List.length (x :: l)) = Some y).
    { rewrite nth_error_app2 by lia. rewrite Nat.sub_diag. reflexivity. }
    assert (Hi' : (i < List.length (x :: l))%nat).
    { apply nth_error_Some. rewrite Hi. discriminate. }
    change (x :: l ++ [y])%list with ((x :: l) ++ [y])%list.
    unfold laterRelease. rewrite (date_gt_true r y t ty Ht Hy).
    destruct (Z.ltb_spec ty t) as [Hlt | Hge].
    + exists i. split; [rewrite nth_error_app1 by exact Hi'; exact Hi |].
      exists t. split; [exact Ht |].
      intros j e' t' Hn He'.
      destruct (Nat.lt_ge_cases j (List.length (x :: l))) as [Hj | Hj].
      * rewrite nth_error_app1 in Hn by exact Hj. exact (Hmax j e' t' Hn He').
      * rewrite nth_error_app2 in Hn by exact Hj.
        destruct (j - List.length (x :: l))%nat as [| k] eqn:Hk; simpl in Hn.
        -- injection Hn as <-. rewrite Hy in He'. injection He' as <-. lia.
        -- destruct k; discriminate.
    + exists (List.length (x :: l)). split; [exact Hlen |].
      exists ty. split; [exact Hy |].
      intros j e' t' Hn He'.
      destruct (Nat.lt_ge_cases j (List.length (x :: l))) as [Hj | Hj].
      * rewrite nth_error_app1 in Hn by exact Hj.
        destruct (Hmax j e' t' Hn He') as [Hle _]. lia.
      * rewrite nth_error_app2 in Hn by exact Hj.
        destruct (j - List.length (x :: l))%nat as [| k] eqn:Hk; simpl in Hn.
        -- injection Hn as <-. rewrite Hy in He'. injection He' as <-. lia.
        -- destruct k; discriminate.
Qed.

(** The entry that has the latest date and is the last of its kind is
    unique. *)
Lemma LatestLast_unique (l : list ReleaseDate) (i j : nat) (e e' : ReleaseDate) :
  LatestLast timeValue l i e -> LatestLast timeValue l j e' -> i = j /\ e = e'.
Proof.
  intros (Hi & t & Ht & Hmax) (Hj & t' & Ht' & Hmax').
  destruct (Hmax j e' t' Hj Ht') as [H1 H2].
  destruct (Hmax' i e t Hi Ht) as [H3 H4].
  assert (i = j).
  { destruct (Nat.lt_trichotomy i j) as [H | [H | H]]; [| exact H |].
    - specialize (H2 H). lia.
    - specialize (H4 H). lia. }
  subst j. split; [reflexivity | congruence].
Qed.

(** The release the component selects, when every labelled release of the
    US entry is dated. *)
Lemma relevantRelease_latest_last (mi : option MediaInfo) :
  certifiedReleases mi <> [] ->
  AllDated timeValue (certifiedReleases mi) ->
  exists i e,
    relevantRelease timeValue mi = Some e
    /\ LatestLast timeValue (certifiedReleases mi) i e.
Proof.
  intros Hne Hd. unfold relevantRelease.
  destruct (certifiedReleases mi) as [| x l] eqn:E; [congruence |].
  cbn [List.length Nat.ltb Nat.leb JS.reduce].
  destruct (reduce_latest_last l x Hd) as (i & Hi).
  exists i, (fold_left (laterRelease timeValue) l x). split; [reflexivity | exact Hi].
Qed.

End Latest.

Lemma movie_badge (timeValue : string -> option Z) (media : MediaItem)
  (mi : option MediaInfo) :
  type media = "movie" ->
  certificationBadge timeValue media mi
  = if JS.truthy (displayCertification timeValue mi)
    then Text (displayCertification timeValue mi) else Skeleton.
Proof.
  intros H. unfold certificationBadge. rewrite H. reflexivity.
Qed.

Lemma show_badge (timeValue : string -> option Z) (media : MediaItem)
  (mi : option MediaInfo) :
  type media = "show" ->
  certificationBadge timeValue media mi = Text (contentRating mi).
Proof.
  intros H. unfold certificationBadge. rewrite H. reflexivity.
Qed.

(** C1, amended. For a movie, when the US entry of the response has at
    least one release with a certification label and every such release
    has a valid date, the certification shown is the label of the release
    with the latest date among them, the last in iteration order of those
    that share that date. *)
Theorem certification_latest_release
  (timeValue : string -> option Z) (media : MediaItem)
  (mi : option MediaInfo) (us : RegionResult)
  (Hmovie : type media = "movie")
  (Hus : usEntry mi = Some us)
  (Hne : certifiedOf us <> [])
  (Hd : AllDated timeValue (certifiedOf us)) :
  exists i e,
    LatestLast timeValue (certifiedOf us) i e
    /\ certificationBadge timeValue media mi = Text (certification e).
Proof.
  assert (Hc : certifiedReleases mi = certifiedOf us).
  { rewrite certifiedReleases_usEntry, Hus. reflexivity. }
  rewrite <- Hc in Hne, Hd.
  destruct (relevantRelease_latest_last timeValue mi Hne Hd) as (i & e & Hr & Hl).
  exists i, e. rewrite <- Hc. split; [exact Hl |].
  rewrite movie_badge by exact Hmovie.
  unfold displayCertification. rewrite Hr.
  rewrite (certification_retained mi e); [reflexivity |].
  destruct Hl as [Hn _]. exact (nth_error_In _ _ Hn).
Qed.

Lemma certification_latest_release_witness :
  exists i e,
    LatestLast IsoDate.timeValue (certifiedOf matrixUS) i e
    /\ certificationBadge IsoDate.timeValue theMatrix matrixReleases
       = Text (certification e).
Proof.
  apply (certification_latest_release IsoDate.timeValue theMatrix
           matrixReleases matrixUS).
  - reflexivity.
  - reflexivity.
  - discriminate.
  - intros e He. simpl in He.
    destruct He as [<- | [<- | [<- | []]]]; discriminate.
Defined.

Example certification_tie_last_wins :
  certificationBadge IsoDate.timeValue theMatrix matrixReleases = Text "NC-17".
Proof. reflexivity. Qed.

(** C1 fails as stated, in two ways.  With a release whose date string is
    not a date the [reduce] loses the latest release: of the releases R
    (2020), PG (no date), G (2019) the badge of the movie shows G.  And for
    a show the badge never reads the releases: with a single release R it
    shows ["NR"]. *)
Lemma certification_latest_release_counterexample :
  (usEntry undatedReleases = Some undatedUS
   /\ LatestLast IsoDate.timeValue (certifiedOf undatedUS) 0
        (release "R" "2020-01-01T00:00:00.000Z")
   /\ certificationBadge IsoDate.timeValue theMatrix undatedReleases = Text "G"
   /\ certificationBadge IsoDate.timeValue theMatrix undatedReleases <> Text "R")
  /\
  (usEntry singleRelease = Some singleUS
   /\ AllDated IsoDate.timeValue (certifiedOf singleUS)
   /\ LatestLast IsoDate.timeValue (certifiedOf singleUS) 0
        (release "R" "2020-01-01T00:00:00.000Z")
   /\ certificationBadge IsoDate.timeValue gameOfThrones singleRelease = Text "NR"
   /\ certificationBadge IsoDate.timeValue gameOfThrones singleRelease <> Text "R").
Proof.
  split.
  - split; [reflexivity |]. split; [| split; [reflexivity | discriminate]].
    split; [reflexivity |].
    exists 1577836800000. split; [reflexivity |].
    intros [| [| [| j]]] e' t' Hn He'; simpl in Hn.
    + injection Hn as <-. vm_compute in He'. injection He' as <-. lia.
    + injection Hn as <-. vm_compute in He'. discriminate.
    + injection Hn as <-. vm_compute in He'. injection He' as <-. lia.
    + destruct j; discriminate.
  - split; [reflexivity |].
    split.
    { intros e He. simpl in He. destruct He as [<- | []]. discriminate. }
    split; [| split; [reflexivity | discriminate]].
    split; [reflexivity |].
    exists 1577836800000. split; [reflexivity |].
    intros [| j] e' t' Hn He'; simpl in Hn.
    + injection Hn as <-. vm_compute in He'. injection He' as <-. lia.
    + destruct j; discriminate.
Qed.

Lemma usEntry_none (mi : option MediaInfo) :
  usEntries mi = [] -> usEntry mi = None.
Proof. unfold usEntry. intros ->. reflexivity. Qed.

(** Without a labelled release in the US entry the movie certification is
    the fixed text. *)
Lemma displayCertification_fallback (timeValue : string -> option Z)
  (mi : option MediaInfo) :
  certifiedReleases mi = [] -> displayCertification timeValue mi = "Not Rated".
Proof.
  intros H. unfold displayCertification, relevantRelease. rewrite H. reflexivity.
Qed.

(** C2, amended. When the response has no US entry or its US entry has no
    release with a certification label, the certification shown for a movie
    is ["Not Rated"].  For a show the releases are not consulted: the
    certification shown is ["NR"] when the response has no US entry or its
    US entry has no content rating (none, or an empty one), and is the
    content rating of the US entry otherwise. *)
Theorem certification_fallback
  (timeValue : string -> option Z) (media : MediaItem) (mi : option MediaInfo) :
  (type media = "movie" ->
   (usEntries mi = []
    \/ exists us, usEntry mi = Some us /\ certifiedOf us = []) ->
   certificationBadge timeValue media mi = Text "Not Rated")
  /\ (type media = "show" ->
      (usEntries mi = []
       \/ exists us, usEntry mi = Some us
                     /\ (rating us = None \/ rating us = Some "")) ->
      certificationBadge timeValue media mi = Text "NR")
  /\ (type media = "show" ->
      forall us r, usEntry mi = Some us -> rating us = Some r -> r <> "" ->
      certificationBadge timeValue media mi = Text r).
Proof.
  split; [| split].
  - intros Hm H. rewrite movie_badge by exact Hm.
    rewrite displayCertification_fallback; [reflexivity |].
    rewrite certifiedReleases_usEntry.
    destruct H as [H | (us & Hus & Hc)].
    + rewrite usEntry_none by exact H. reflexivity.
    + rewrite Hus. exact Hc.
  - intros Hs H. rewrite show_badge by exact Hs. f_equal.
    unfold contentRating. rewrite usReleaseInfo_usEntry.
    destruct H as [H | (us & Hus & [Hr | Hr])].
    + rewrite usEntry_none by exact H. reflexivity.
    + rewrite Hus, Hr. reflexivity.
    + rewrite Hus, Hr. reflexivity.
  - intros Hs us r Hus Hr Hne. rewrite show_badge by exact Hs. f_equal.
    unfold contentRating. rewrite usReleaseInfo_usEntry, Hus, Hr.
    apply truthy_true in Hne. rewrite Hne. reflexivity.
Qed.

Lemma certification_fallback_witness :
  certificationBadge IsoDate.timeValue theMatrix abroadOnly = Text "Not Rated"
  /\ certificationBadge IsoDate.timeValue gameOfThrones abroadOnly = Text "NR"
  /\ certificationBadge IsoDate.timeValue gameOfThrones thronesRatings
     = Text "TV-MA".
Proof.
  split; [| split].
  - apply (certification_fallback IsoDate.timeValue theMatrix abroadOnly).
    + reflexivity.
    + left. reflexivity.
  - apply (certification_fallback IsoDate.timeValue gameOfThrones abroadOnly).
    + reflexivity.
    + left. reflexivity.
  - apply (proj2 (proj2 (certification_fallback IsoDate.timeValue gameOfThrones
                           thronesRatings)) eq_refl thronesUS "TV-MA").
    + reflexivity.
    + reflexivity.
    + discriminate.
Defined.

(** C2 fails as stated for a show: the US entry of a content-ratings
    response has no release with a certification label, and the badge shows
    its content rating, not ["NR"]. *)
Lemma certification_fallback_counterexample :
  type gameOfThrones = "show"
  /\ usEntry thronesRatings = Some thronesUS
  /\ certifiedOf thronesUS = []
  /\ certificationBadge IsoDate.timeValue gameOfThrones thronesRatings
     = Text "TV-MA"
  /\ certificationBadge IsoDate.timeValue gameOfThrones thronesRatings
     <> Text "NR".
Proof.
  repeat split; try reflexivity. discriminate.
Qed.

(** The badge reads the response through the US entry alone. *)
Lemma badge_of_usReleaseInfo (timeValue : string -> option Z) (media : MediaItem)
  (mi1 mi2 : option MediaInfo) :
  usReleaseInfo mi1 = usReleaseInfo mi2 ->
  certificationBadge timeValue media mi1 = certificationBadge timeValue media mi2.
Proof.
  intros Hu.
  unfold certificationBadge, displayCertification, relevantRelease,
    contentRating, certifiedReleases.
  rewrite Hu. reflexivity.
Qed.

(** C6. Two responses with the same US entries, whatever their entries for
    other regions, show the same certification, for every media type. *)
Theorem certification_us_only
  (timeValue : string -> option Z) (media : MediaItem)
  (mi1 mi2 : option MediaInfo)
  (Hus : usEntries mi1 = usEntries mi2) :
  certificationBadge timeValue media mi1 = certificationBadge timeValue media mi2.
Proof.
  apply badge_of_usReleaseInfo.
  rewrite !usReleaseInfo_usEntry. unfold usEntry. rewrite Hus. reflexivity.
Qed.

Lemma certification_us_only_witness :
  usEntries matrixReleases = usEntries matrixReleasesAbroad
  /\ otherEntries matrixReleases <> otherEntries matrixReleasesAbroad
  /\ certificationBadge IsoDate.timeValue theMatrix matrixReleases
     = certificationBadge IsoDate.timeValue theMatrix matrixReleasesAbroad.
Proof.
  split; [reflexivity |].
  split; [discriminate |].
  apply (certification_us_only IsoDate.timeValue theMatrix).
  reflexivity.
Defined.

(** Entries for other regions can be added, dropped or changed at will. *)
Corollary certification_ignores_other_regions
  (timeValue : string -> option Z) (media : MediaItem)
  (rs extra : list RegionResult) :
  (forall r, In r extra -> iso_3166_1 r <> "US") ->
  certificationBadge timeValue media (response (extra ++ rs)%list)
  = certificationBadge timeValue media (response rs).
Proof.
  intros H. apply badge_of_usReleaseInfo.
  rewrite !usReleaseInfo_usEntry. unfold usEntry, usEntries.
  cbn [resultsOf response results]. rewrite filter_app.
  replace (filter (fun r => String.eqb (iso_3166_1 r) "US") extra)
    with (@nil RegionResult); [reflexivity |].
  symmetry. induction extra as [| a l IH]; [reflexivity |].
  simpl. destruct (String.eqb_spec (iso_3166_1 a) "US") as [E | E].
  - exfalso. apply (H a); [left; reflexivity | exact E].
  - apply IH. intros r Hr. apply H. right. exact Hr.
Qed.

(** ** The two fetches and the shared error slot *)

Lemma error_setError (e : option string) (st : State) : error (setError e st) = e.
Proof. reflexivity. Qed.

Lemma isHidden_settle (props : Props) (e : FetchEvent) (st : State) :
  isHidden props (settle e st) = isHidden props st.
Proof. destruct e as [[r |] | [r |]]; reflexivity. Qed.

Lemma render_cases (timeValue : string -> option Z) (props : Props) (st : State) :
  render timeValue props st
  = if isHidden props st then NullView
    else match error st with
         | Some (String c s) => ErrorView ("Error: " ++ String c s)
         | _ => OverlayView (renderBody timeValue props st)
         end.
Proof.
  unfold render, isHidden.
  destruct (negb (isVisible props) && _); [reflexivity |].
  destruct (error st) as [[| c s] |]; reflexivity.
Qed.

(** After a settling, the error slot holds the message of a failure and
    nothing after a success. *)
Lemma error_settle (e : FetchEvent) (st : State) :
  error (settle e st) = failureMessage e.
Proof. destruct e as [[r |] | [r |]]; reflexivity. Qed.

(** After a sequence of settlings the error slot is decided by the last
    one. *)
Lemma error_settleAll (es : list FetchEvent) (e : FetchEvent) (st : State) :
  error (settleAll (es ++ [e])%list st) = failureMessage e.
Proof.
  unfold settleAll. rewrite fold_left_app. cbn [fold_left]. apply error_settle.
Qed.

(** C3, amended. When one of the two fetches fails while the overlay is
    rendered, the overlay body is replaced by the text ["Error: "] followed
    by the message of that fetch: ["Failed to fetch media data"] for the
    primary metadata, ["Failed to fetch content ratings or release dates"]
    for the certification.  The two texts differ: the text shown tells
    which fetch failed. *)
Theorem fetch_failure_rendered
  (timeValue : string -> option Z) (props : Props) (st : State)
  (Hshown : isHidden props st = false) :
  render timeValue props (fetchData_settled Rejected st)
  = ErrorView "Error: Failed to fetch media data"
  /\ render timeValue props (fetchContentRatingsOrReleaseDates_settled Rejected st)
     = ErrorView "Error: Failed to fetch content ratings or release dates"
  /\ render timeValue props (fetchData_settled Rejected st)
     <> render timeValue props (fetchContentRatingsOrReleaseDates_settled Rejected st).
Proof.
  assert (H1 : render timeValue props (fetchData_settled Rejected st)
               = ErrorView "Error: Failed to fetch media data").
  { change (fetchData_settled Rejected st) with (settle (DataSettled Rejected) st).
    rewrite render_cases, isHidden_settle, Hshown. reflexivity. }
  assert (H2 : render timeValue props
                 (fetchContentRatingsOrReleaseDates_settled Rejected st)
               = ErrorView "Error: Failed to fetch content ratings or release dates").
  { change (fetchContentRatingsOrReleaseDates_settled Rejected st)
      with (settle (InfoSettled Rejected) st).
    rewrite render_cases, isHidden_settle, Hshown. reflexivity. }
  split; [exact H1 |]. split; [exact H2 |].
  rewrite H1, H2. discriminate.
Qed.

Lemma fetch_failure_rendered_witness :
  isHidden shownMovie shownState = false
  /\ render IsoDate.timeValue shownMovie (fetchData_settled Rejected shownState)
     = ErrorView "Error: Failed to fetch media data"
  /\ render IsoDate.timeValue shownMovie
       (fetchContentRatingsOrReleaseDates_settled Rejected shownState)
     = ErrorView "Error: Failed to fetch content ratings or release dates".
Proof.
  split; [reflexivity |].
  destruct (fetch_failure_rendered IsoDate.timeValue shownMovie shownState eq_refl)
    as (H1 & H2 & _).
  split; [exact H1 | exact H2].
Defined.

(** C3 fails as stated: no single text is shown for both failures; the
    text shown after the primary fetch failed differs from the one shown
    after the certification fetch failed. *)
Lemma fetch_failure_rendered_counterexample :
  render IsoDate.timeValue shownMovie (fetchData_settled Rejected shownState)
  <> render IsoDate.timeValue shownMovie
       (fetchContentRatingsOrReleaseDates_settled Rejected shownState)
  /\ ~ (exists text,
          render IsoDate.timeValue shownMovie
            (fetchData_settled Rejected shownState) = ErrorView text
          /\ render IsoDate.timeValue shownMovie
               (fetchContentRatingsOrReleaseDates_settled Rejected shownState)
             = ErrorView text).
Proof.
  split; [discriminate |].
  intros (text & H1 & H2). rewrite <- H2 in H1. discriminate H1.
Qed.

Lemma isHidden_settleAll (props : Props) (es : list FetchEvent) (st : State) :
  isHidden props (settleAll es st) = isHidden props st.
Proof.
  unfold settleAll. revert st.
  induction es as [| a l IH]; intros st; simpl; [reflexivity |].
  rewrite IH. apply isHidden_settle.
Qed.

(** No failure is shown while the component returns nothing. *)
Lemma fetch_failure_hidden (timeValue : string -> option Z) (props : Props)
  (e : FetchEvent) (st : State) :
  isHidden props st = true -> render timeValue props (settle e st) = NullView.
Proof.
  intros H. rewrite render_cases, isHidden_settle, H. reflexivity.
Qed.

Lemma failureMessage_success (e : FetchEvent) :
  failureMessage e = None <-> isSuccess e = true.
Proof. destruct e as [[r |] | [r |]]; simpl; split; congruence. Qed.

(** Without a recorded error the render function never returns the error
    line. *)
Lemma render_no_error (timeValue : string -> option Z) (props : Props) (st : State) :
  error st = None -> isErrorView (render timeValue props st) = false.
Proof.
  intros H. rewrite render_cases, H. destruct (isHidden props st); reflexivity.
Qed.

(** C10. A successful completion of either fetch sets the shared error
    slot to [null]; so when one fetch has failed and the other one succeeds
    afterwards (whatever settles in between), the recorded error is gone and
    the error line is no longer what the component renders. *)
Theorem fetch_success_clears_error :
  (forall (result : MediaData) (st : State),
      error (fetchData_settled (Resolved result) st) = None)
  /\ (forall (result : MediaInfo) (st : State),
      error (fetchContentRatingsOrReleaseDates_settled (Resolved result) st) = None)
  /\ (forall timeValue props st between (result : MediaInfo),
      let st' := settleAll (DataSettled Rejected :: between
                              ++ [InfoSettled (Resolved result)])%list st in
      error st' = None /\ isErrorView (render timeValue props st') = false)
  /\ (forall timeValue props st between (result : MediaData),
      let st' := settleAll (InfoSettled Rejected :: between
                              ++ [DataSettled (Resolved result)])%list st in
      error st' = None /\ isErrorView (render timeValue props st') = false).
Proof.
  split; [reflexivity |]. split; [reflexivity |].
  split; intros timeValue props st between result st'.
  - assert (H : error st' = None).
    { unfold st'. rewrite app_comm_cons. rewrite error_settleAll. reflexivity. }
    split; [exact H | apply render_no_error; exact H].
  - assert (H : error st' = None).
    { unfold st'. rewrite app_comm_cons. rewrite error_settleAll. reflexivity. }
    split; [exact H | apply render_no_error; exact H].
Qed.

(** The overlay is back once the error is cleared. *)
Lemma overlay_after_success (timeValue : string -> option Z) (props : Props)
  (st : State) (es : list FetchEvent) (e : FetchEvent) :
  isHidden props st = false -> isSuccess e = true ->
  let st' := settleAll (es ++ [e])%list st in
  render timeValue props st' = OverlayView (renderBody timeValue props st').
Proof.
  intros Hs He st'.
  assert (Hh : isHidden props st' = false).
  { unfold st'. rewrite isHidden_settleAll. exact Hs. }
  rewrite render_cases, Hh.
  unfold st'. rewrite error_settleAll.
  apply failureMessage_success in He. rewrite He. reflexivity.
Qed.

Example error_then_recovery :
  isErrorView
    (render IsoDate.timeValue shownMovie
       (settleAll [DataSettled Rejected; InfoSettled (Resolved {| results := None |})]
          shownState))
  = false.
Proof. reflexivity. Qed.

(** ** The requests *)

(** C8. On becoming visible the component calls [get] twice for a movie or
    a show: for the primary metadata on [/movie/{id}] or [/tv/{id}] (the
    type "show" mapped to the segment "tv"), and for the certification on
    [/movie/{id}/release_dates] or [/tv/{id}/content_ratings].  The second
    request is issued for no other media type. *)
Theorem fetch_paths (key : string) (previous : option Props) (props : Props)
  (Hvisible : isVisible props = true)
  (Hbecame : previous = None
             \/ exists old, previous = Some old /\ isVisible old = false) :
  (type (media props) = "movie" ->
   fetchEffects key previous props
   = [ {| path := "/movie/" ++ id (media props);
          api_key := key; language := "en-US" |};
       {| path := "/movie/" ++ id (media props) ++ "/release_dates";
          api_key := key; language := "en-US" |} ])
  /\ (type (media props) = "show" ->
      fetchEffects key previous props
      = [ {| path := "/tv/" ++ id (media props);
             api_key := key; language := "en-US" |};
          {| path := "/tv/" ++ id (media props) ++ "/content_ratings";
             api_key := key; language := "en-US" |} ])
  /\ (forall r, fetchContentRatingsOrReleaseDates_request key props = Some r ->
      type (media props) = "movie" \/ type (media props) = "show").
Proof.
  assert (Hd : depsChanged previous props = true).
  { destruct Hbecame as [-> | (old & -> & Hold)]; [reflexivity |].
    unfold depsChanged. rewrite Hold, Hvisible.
    rewrite !andb_false_r. reflexivity. }
  split; [| split].
  - intros Ht. unfold fetchEffects, fetchData_request,
      fetchContentRatingsOrReleaseDates_request.
    rewrite Hd, Hvisible, Ht. reflexivity.
  - intros Ht. unfold fetchEffects, fetchData_request,
      fetchContentRatingsOrReleaseDates_request.
    rewrite Hd, Hvisible, Ht. reflexivity.
  - intros r. unfold fetchContentRatingsOrReleaseDates_request.
    destruct (String.eqb_spec (type (media props)) "show") as [Es | Es];
      [intros _; right; exact Es |].
    destruct (String.eqb_spec (type (media props)) "movie") as [Em | Em];
      [intros _; left; exact Em |].
    rewrite orb_true_r. discriminate.
Qed.

Lemma fetch_paths_witness :
  fetchEffects "k3y" (Some hiddenMovie) shownMovie
  = [ {| path := "/movie/603"; api_key := "k3y"; language := "en-US" |};
      {| path := "/movie/603/release_dates"; api_key := "k3y";
         language := "en-US" |} ]
  /\ fetchEffects "k3y" None shownShow
     = [ {| path := "/tv/1399"; api_key := "k3y"; language := "en-US" |};
         {| path := "/tv/1399/content_ratings"; api_key := "k3y";
            language := "en-US" |} ].
Proof.
  split.
  - apply (fetch_paths "k3y" (Some hiddenMovie) shownMovie).
    + reflexivity.
    + right. exists hiddenMovie. split; reflexivity.
    + reflexivity.
  - apply (proj2 (fetch_paths "k3y" None shownShow eq_refl (or_introl eq_refl))).
    reflexivity.
Defined.

(** An invisible overlay issues no request. *)
Lemma fetch_nothing_when_invisible (key : string) (previous : option Props)
  (props : Props) :
  isVisible props = false -> fetchEffects key previous props = [].
Proof.
  intros H. unfold fetchEffects, fetchData_request,
    fetchContentRatingsOrReleaseDates_request.
  rewrite H. destruct (depsChanged previous props); reflexivity.
Qed.

(** No request is issued again while id, type and visibility stay. *)
Lemma fetch_nothing_without_change (key : string) (props : Props) :
  fetchEffects key (Some props) props = [].
Proof.
  unfold fetchEffects, depsChanged.
  rewrite !String.eqb_refl, Bool.eqb_reflx. reflexivity.
Qed.

(** ** The watch action *)

(** C9, amended. The watch action hands the navigation collaborator one
    route, ["/media/tmdb-{tv|movie}-{id}-{title}"]: the fixed prefix
    ["/media/tmdb-"], then the segment "tv" for a show and "movie" for every
    other type, then the id and the display title of the media, joined by
    dashes. *)
Theorem watch_route (media : MediaItem) :
  (type media = "show" ->
   watch_onClick media
   = [Navigate ("/media/tmdb-tv-" ++ id media ++ "-" ++ title media)])
  /\ (type media <> "show" ->
      watch_onClick media
      = [Navigate ("/media/tmdb-movie-" ++ id media ++ "-" ++ title media)]).
Proof.
  unfold watch_onClick, watchRoute, isTVShow. split; intros H.
  - rewrite H. reflexivity.
  - destruct (String.eqb_spec (type media) "show") as [E | E];
      [contradiction | reflexivity].
Qed.

Lemma watch_route_witness :
  watch_onClick gameOfThrones = [Navigate "/media/tmdb-tv-1399-Game of Thrones"]
  /\ watch_onClick theMatrix = [Navigate "/media/tmdb-movie-603-The Matrix"].
Proof.
  split.
  - apply (proj1 (watch_route gameOfThrones)). reflexivity.
  - apply (proj2 (watch_route theMatrix)). discriminate.
Defined.

(** C9 fails as stated: the route is not the media type, id and title
    joined by dashes.  For a show it does not even end that way (the
    segment is "tv", not the type); for a movie the prefix is missing from
    the stated form. *)
Lemma watch_route_counterexample :
  watch_onClick gameOfThrones = [Navigate "/media/tmdb-tv-1399-Game of Thrones"]
  /\ watchRoute_spec gameOfThrones = "show-1399-Game of Thrones"
  /\ watch_onClick gameOfThrones <> [Navigate (watchRoute_spec gameOfThrones)]
  /\ endsWith (watchRoute gameOfThrones) (watchRoute_spec gameOfThrones) = false
  /\ watch_onClick theMatrix <> [Navigate (watchRoute_spec theMatrix)].
Proof.
  repeat split; try reflexivity; discriminate.
Qed.

(** ** The outside-click subscription *)

Lemma Subscribed_empty : Subscribed emptyWorld.
Proof. split; reflexivity. Qed.

Lemma removeEventListener_self (l : Listener) : removeEventListener l [l] = [].
Proof.
  unfold removeEventListener. simpl. rewrite Nat.eqb_refl. reflexivity.
Qed.

Lemma Subscribed_commit (props : Props) (v : View) (panel : DomNode) (w : World) :
  Subscribed w -> Subscribed (commit props v panel w).
Proof.
  unfold Subscribed, commit, subscriptionEffect.
  destruct (current w) as [old |] eqn:Hc; cbn [current].
  - intros (l & Hm & Hs & Ho).
    destruct (Nat.eqb_spec (onClose old) (onClose props)) as [E | E].
    + exists l. repeat split; try assumption. congruence.
    + unfold cleanup. rewrite Hs. unfold subscribe. cbn.
      rewrite Hm, removeEventListener_self. cbn.
      eexists. repeat split.
  - intros (Hm & Hs). unfold subscribe. cbn. rewrite Hm. cbn.
    eexists. repeat split.
Qed.

Lemma Subscribed_commits (h : list (Props * View * DomNode)) (w : World) :
  Subscribed w -> Subscribed (commits h w).
Proof.
  revert w. induction h as [| [[props v] panel] h IH]; intros w Hw; simpl.
  - exact Hw.
  - apply IH. apply Subscribed_commit. exact Hw.
Qed.

Lemma commits_app (h1 h2 : list (Props * View * DomNode)) (w : World) :
  commits (h1 ++ h2)%list w = commits h2 (commits h1 w).
Proof.
  revert w. induction h1 as [| [[props v] panel] h1 IH]; intros w; simpl.
  - reflexivity.
  - apply IH.
Qed.

(** After a commit: the props and the ref of that commit, and the single
    listener with the callback of those props. *)
Lemma commit_last (h : list (Props * View * DomNode)) (props : Props)
  (v : View) (panel : DomNode) :
  let w := commits (h ++ [(props, v, panel)])%list emptyWorld in
  modalRef w = attachRef v panel
  /\ exists l, mousedown w = [l] /\ l_onClose l = onClose props.
Proof.
  intros w. unfold w. rewrite commits_app. cbn [commits].
  split; [reflexivity |].
  pose proof (Subscribed_commit props v panel _
                (Subscribed_commits h emptyWorld Subscribed_empty)) as H.
  unfold Subscribed in H. cbn [commit current] in H.
  destruct H as (l & Hm & _ & Ho). exists l. split; assumption.
Qed.

(** C7, amended. While the overlay is mounted, visible and rendered with
    its body (no error line in its place), a pointer-down event whose
    target lies outside the panel of the overlay, the element the ref is
    attached to, calls [onClose] exactly once, and one whose target lies
    inside the panel does not call it. *)
Theorem click_outside
  (timeValue : string -> option Z)
  (h : list (Props * View * DomNode)) (props : Props) (st : State)
  (panel : DomNode) (target : nat)
  (Hvisible : isVisible props = true)
  (Herror : JS.truthy_opt (error st) = false) :
  let w := commits (h ++ [(props, render timeValue props st, panel)])%list
             emptyWorld in
  dispatchMousedown target w
  = if contains panel target then [] else [CallOnClose (onClose props)].
Proof.
  intros w.
  destruct (commit_last h props (render timeValue props st) panel)
    as (Href & l & Hm & Ho).
  fold w in Href, Hm.
  unfold dispatchMousedown. rewrite Hm, Href.
  unfold render. rewrite Hvisible, Herror. cbn [negb andb attachRef flat_map].
  unfold handleClickOutside. rewrite Ho, app_nil_r.
  destruct (contains panel target); reflexivity.
Qed.

Lemma click_outside_witness :
  contains panelNode 1 = false
  /\ dispatchMousedown 1 sampleWorld = [CallOnClose 7]
  /\ contains panelNode 5 = true
  /\ dispatchMousedown 5 sampleWorld = [].
Proof.
  split; [reflexivity |].
  split; [| split; [reflexivity |]].
  - apply (click_outside IsoDate.timeValue sampleHistory shownMovie shownState
             panelNode 1); reflexivity.
  - apply (click_outside IsoDate.timeValue sampleHistory shownMovie shownState
             panelNode 5); reflexivity.
Defined.

(** C7 fails as stated, in two ways.  While the overlay is visible and
    the error line is rendered in its place, the ref is [null] and a
    pointer-down outside everything the component rendered calls nothing.
    And when the overlay is rendered, the ref is on the panel, not on the
    element the component returns: a pointer-down on that outer element is
    inside the root element and calls [onClose]. *)
Lemma click_outside_counterexample :
  (isVisible shownMovie = true
   /\ render IsoDate.timeValue shownMovie (fetchData_settled Rejected shownState)
      = ErrorView "Error: Failed to fetch media data"
   /\ contains errorLineNode 1 = false
   /\ dispatchMousedown 1 errorWorld = [])
  /\
  (isVisible shownMovie = true
   /\ isErrorView (render IsoDate.timeValue shownMovie shownState) = false
   /\ contains overlayRoot 2 = true
   /\ contains panelNode 2 = false
   /\ dispatchMousedown 2 sampleWorld = [CallOnClose 7]).
Proof.
  repeat split.
Qed.

(** The call reaches the callback of the last render once. *)
Lemma once_per_outside_click
  (timeValue : string -> option Z)
  (h : list (Props * View * DomNode)) (props : Props) (st : State)
  (panel : DomNode) (target : nat) :
  isVisible props = true ->
  JS.truthy_opt (error st) = false ->
  contains panel target = false ->
  callsOf (onClose props)
    (dispatchMousedown target
       (commits (h ++ [(props, render timeValue props st, panel)])%list emptyWorld))
  = 1%nat.
Proof.
  intros Hv He Hc.
  destruct (commit_last h props (render timeValue props st) panel)
    as (Href & l & Hm & Ho).
  unfold dispatchMousedown. rewrite Hm, Href.
  unfold render. rewrite Hv, He. cbn [negb andb attachRef flat_map].
  unfold handleClickOutside. rewrite Ho, Hc. cbn.
  rewrite Nat.eqb_refl. reflexivity.
Qed.

(** While the error line or nothing is rendered the ref is [null] and no
    pointer-down event calls [onClose]. *)
Lemma click_without_panel
  (h : list (Props * View * DomNode)) (props : Props) (v : View)
  (panel : DomNode) (target : nat) :
  (forall body, v <> OverlayView body) ->
  dispatchMousedown target
    (commits (h ++ [(props, v, panel)])%list emptyWorld) = [].
Proof.
  intros Hv.
  destruct (commit_last h props v panel) as (Href & l & Hm & _).
  unfold dispatchMousedown. rewrite Hm, Href.
  destruct v as [| text | body]; try reflexivity.
  exfalso. apply (Hv body). reflexivity.
Qed.

(** After the unmount the document holds no listener of the instance. *)
Lemma unmount_unsubscribes (h : list (Props * View * DomNode)) (target : nat) :
  mousedown (unmount (commits h emptyWorld)) = []
  /\ dispatchMousedown target (unmount (commits h emptyWorld)) = [].
Proof.
  pose proof (Subscribed_commits h emptyWorld Subscribed_empty) as H.
  unfold Subscribed in H.
  assert (Hm : mousedown (unmount (commits h emptyWorld)) = []).
  { unfold unmount, cleanup. cbn [mousedown].
    destruct (current (commits h emptyWorld)).
    - destruct H as (l & Hm & Hs & _). rewrite Hs. cbn [mousedown].
      rewrite Hm. apply removeEventListener_self.
    - destruct H as (Hm & Hs). rewrite Hs. exact Hm. }
  split; [exact Hm |]. unfold dispatchMousedown. rewrite Hm. reflexivity.
Qed.

(** * Further properties of the component *)

(** ** Settlings in sequence *)

Lemma settleAll_cons (e : FetchEvent) (es : list FetchEvent) (st : State) :
  settleAll (e :: es) st = settleAll es (settle e st).
Proof. reflexivity. Qed.

Lemma data_settle (e : FetchEvent) (st : State) :
  data (settle e st) = orDefault (resolvedData e) (data st).
Proof. destruct e as [[r |] | [r |]]; reflexivity. Qed.

Lemma mediaInfo_settle (e : FetchEvent) (st : State) :
  mediaInfo (settle e st) = orDefault (resolvedInfo e) (mediaInfo st).
Proof. destruct e as [[r |] | [r |]]; reflexivity. Qed.

(** X1. After any sequence of settlings the metadata slot holds the result
    of the last primary fetch that succeeded, and the certification slot the
    result of the last certification fetch that succeeded; failures and the
    other fetch leave a slot as it was, and the transition style is never
    touched. *)
Theorem slots_after_settlings (es : list FetchEvent) (st : State) :
  data (settleAll es st) = orDefault (lastSome resolvedData es) (data st)
  /\ mediaInfo (settleAll es st)
     = orDefault (lastSome resolvedInfo es) (mediaInfo st)
  /\ style (settleAll es st) = style st.
Proof.
  revert st. induction es as [| e es IH]; intros st.
  - repeat split.
  - rewrite settleAll_cons. destruct (IH (settle e st)) as (Hd & Hm & Hs).
    rewrite Hd, Hm, Hs, data_settle, mediaInfo_settle. cbn [lastSome].
    split; [| split].
    + destruct (lastSome resolvedData es); reflexivity.
    + destruct (lastSome resolvedInfo es); reflexivity.
    + destruct e as [[r |] | [r |]]; reflexivity.
Qed.

(** X2. While the component is rendered, what it returns after a sequence
    of settlings is decided by the last one: the error line with the message
    of that fetch when it failed, the overlay when it succeeded, whatever
    happened before. *)
Theorem view_after_settlings
  (timeValue : string -> option Z) (props : Props) (st : State)
  (es : list FetchEvent) (e : FetchEvent)
  (Hshown : isHidden props st = false) :
  let st' := settleAll (es ++ [e])%list st in
  render timeValue props st'
  = match failureMessage e with
    | Some message => ErrorView ("Error: " ++ message)
    | None => OverlayView (renderBody timeValue props st')
    end.
Proof.
  intros st'. rewrite render_cases.
  unfold st'. rewrite isHidden_settleAll, Hshown, error_settleAll.
  destruct e as [[r |] | [r |]]; reflexivity.
Qed.

Lemma view_after_settlings_witness :
  render IsoDate.timeValue shownMovie
    (settleAll ([InfoSettled (Resolved {| results := None |})]
                  ++ [DataSettled Rejected])%list shownState)
  = ErrorView "Error: Failed to fetch media data".
Proof.
  apply (view_after_settlings IsoDate.timeValue shownMovie shownState
           [InfoSettled (Resolved {| results := None |})] (DataSettled Rejected)).
  reflexivity.
Defined.

(** ** The transition style *)

Lemma isHidden_styleEffect (props other : Props) (st : State) :
  isHidden props (styleEffect other st) = negb (isVisible props) && negb (isVisible other).
Proof.
  unfold isHidden, styleEffect. destruct (isVisible other); cbn.
  - rewrite andb_false_r. reflexivity.
  - rewrite andb_true_r. reflexivity.
Qed.

(** X3. Once the style effect has followed the flag, the component returns
    nothing exactly when it is invisible. *)
Theorem hidden_after_style_effect
  (timeValue : string -> option Z) (props : Props) (st : State) :
  render timeValue props (styleEffect props st) = NullView
  <-> isVisible props = false.
Proof.
  rewrite render_cases, isHidden_styleEffect.
  destruct (isVisible props); cbn.
  - split; [| discriminate].
    destruct (error (styleEffect props st)) as [[| c s] |]; discriminate.
  - split; reflexivity.
Qed.

(** X4. The fade-out render: when the overlay was shown and the flag turns
    false, the render that precedes the style effect still returns the
    overlay or the error line, and the render that follows it returns
    nothing. *)
Theorem fade_out_render
  (timeValue : string -> option Z) (shown props : Props) (st : State)
  (Hshown : isVisible shown = true)
  (Hprops : isVisible props = false) :
  render timeValue props (styleEffect shown st) <> NullView
  /\ render timeValue props (styleEffect props (styleEffect shown st)) = NullView.
Proof.
  split.
  - rewrite render_cases, isHidden_styleEffect, Hshown, andb_false_r.
    destruct (error (styleEffect shown st)) as [[| c s] |]; discriminate.
  - rewrite render_cases, isHidden_styleEffect, Hprops. reflexivity.
Qed.

Lemma fade_out_render_witness :
  render IsoDate.timeValue hiddenMovie (styleEffect shownMovie initialState)
  <> NullView
  /\ render IsoDate.timeValue hiddenMovie
       (styleEffect hiddenMovie (styleEffect shownMovie initialState))
     = NullView.
Proof.
  apply (fade_out_render IsoDate.timeValue shownMovie hiddenMovie initialState);
    reflexivity.
Defined.

(** ** When requests are issued *)

(** X5. A render issues a request only when the overlay is visible and,
    unless it is the mount, the id, the type or the visibility differs from
    the previous render. *)
Theorem fetch_only_on_change (key : string) (previous : option Props)
  (props : Props) (r : Request)
  (Hr : In r (fetchEffects key previous props)) :
  isVisible props = true
  /\ (previous = None
      \/ exists old, previous = Some old
           /\ (id (media old) <> id (media props)
               \/ type (media old) <> type (media props)
               \/ isVisible old <> isVisible props)).
Proof.
  unfold fetchEffects in Hr.
  destruct (depsChanged previous props) eqn:Hd; [| destruct Hr].
  split.
  - unfold fetchData_request, fetchContentRatingsOrReleaseDates_request in Hr.
    destruct (isVisible props); [reflexivity | destruct Hr].
  - destruct previous as [old |]; [right | left; reflexivity].
    exists old. split; [reflexivity |].
    unfold depsChanged in Hd. apply negb_true_iff in Hd.
    destruct (String.eqb_spec (id (media old)) (id (media props))) as [E1 | E1];
      [| left; exact E1].
    destruct (String.eqb_spec (type (media old)) (type (media props))) as [E2 | E2];
      [| right; left; exact E2].
    right; right. cbn in Hd. intros E. rewrite E, Bool.eqb_reflx in Hd.
    discriminate.
Qed.

Lemma fetch_only_on_change_witness :
  isVisible shownMovie = true
  /\ (Some hiddenMovie = None
      \/ exists old, Some hiddenMovie = Some old
           /\ (id (media old) <> id (media shownMovie)
               \/ type (media old) <> type (media shownMovie)
               \/ isVisible old <> isVisible shownMovie)).
Proof.
  apply (fetch_only_on_change "k3y" (Some hiddenMovie) shownMovie
           {| path := "/movie/603"; api_key := "k3y"; language := "en-US" |}).
  left. reflexivity.
Defined.

(** X6. For a media type other than movie and show, the visible overlay
    requests the primary metadata on [/{type}/{id}], the type used as it
    is, and nothing else. *)
Theorem fetch_other_type (key : string) (props : Props)
  (Hvisible : isVisible props = true)
  (Hmovie : type (media props) <> "movie")
  (Hshow : type (media props) <> "show") :
  fetchEffects key None props
  = [ {| path := "/" ++ type (media props) ++ "/" ++ id (media props);
         api_key := key; language := "en-US" |} ].
Proof.
  unfold fetchEffects, fetchData_request,
    fetchContentRatingsOrReleaseDates_request. cbn [depsChanged].
  rewrite Hvisible.
  destruct (String.eqb_spec (type (media props)) "show"); [contradiction |].
  destruct (String.eqb_spec (type (media props)) "movie"); [contradiction |].
  reflexivity.
Qed.

Lemma fetch_other_type_witness :
  fetchEffects "k3y" None
    {| isVisible := true; onClose := 7;
       media := {| id := "42"; type := "anime"; title := "T"; poster := None |} |}
  = [ {| path := "/anime/42"; api_key := "k3y"; language := "en-US" |} ].
Proof.
  apply (fetch_other_type "k3y"
           {| isVisible := true; onClose := 7;
              media := {| id := "42"; type := "anime"; title := "T";
                          poster := None |} |});
    [reflexivity | discriminate | discriminate].
Defined.

(** X7. When the id or the type of the media changes, the component issues
    the same requests as on a mount with the new props; a change of the
    [onClose] callback or of the title alone issues none. *)
Theorem fetch_on_identity_change (key : string) (old props : Props) :
  (id (media old) <> id (media props)
   \/ type (media old) <> type (media props) ->
   fetchEffects key (Some old) props = fetchEffects key None props)
  /\ (id (media old) = id (media props) ->
      type (media old) = type (media props) ->
      isVisible old = isVisible props ->
      fetchEffects key (Some old) props = []).
Proof.
  split.
  - intros H. unfold fetchEffects.
    replace (depsChanged (Some old) props) with true; [reflexivity |].
    symmetry. unfold depsChanged. apply negb_true_iff.
    destruct H as [H | H].
    + apply String.eqb_neq in H. rewrite H. reflexivity.
    + apply String.eqb_neq in H. rewrite H, andb_false_r. reflexivity.
  - intros Hi Ht Hv. unfold fetchEffects, depsChanged.
    rewrite Hi, Ht, Hv, !String.eqb_refl, Bool.eqb_reflx. reflexivity.
Qed.

Lemma fetch_on_identity_change_witness :
  fetchEffects "k3y" (Some shownMovie) shownShow = fetchEffects "k3y" None shownShow
  /\ fetchEffects "k3y" (Some shownMovie)
       {| isVisible := true; onClose := 8; media := theMatrix |} = [].
Proof.
  split.
  - apply (proj1 (fetch_on_identity_change "k3y" shownMovie shownShow)).
    left. discriminate.
  - apply (proj2 (fetch_on_identity_change "k3y" shownMovie
                    {| isVisible := true; onClose := 8; media := theMatrix |}));
      reflexivity.
Defined.

(** ** The certification badge, whatever the dates *)

(** The [reduce] returns one of the releases it went through. *)
Lemma fold_laterRelease_In (timeValue : string -> option Z)
  (l : list ReleaseDate) (x : ReleaseDate) :
  In (fold_left (laterRelease timeValue) l x) (x :: l).
Proof.
  revert x. induction l as [| y l IH]; intros x; cbn [fold_left].
  - left. reflexivity.
  - specialize (IH (laterRelease timeValue x y)).
    destruct IH as [IH | IH].
    + rewrite <- IH. unfold laterRelease.
      destruct (date_gt timeValue (release_date x) (release_date y)).
      * left. reflexivity.
      * right. left. reflexivity.
    + right. right. exact IH.
Qed.

Lemma relevantRelease_In (timeValue : string -> option Z)
  (mi : option MediaInfo) :
  certifiedReleases mi <> [] ->
  exists e, relevantRelease timeValue mi = Some e /\ In e (certifiedReleases mi).
Proof.
  intros Hne. unfold relevantRelease.
  destruct (certifiedReleases mi) as [| x l]; [congruence |].
  cbn [List.length Nat.ltb Nat.leb JS.reduce].
  eexists. split; [reflexivity | apply fold_laterRelease_In].
Qed.

Lemma relevantRelease_none (timeValue : string -> option Z)
  (mi : option MediaInfo) :
  certifiedReleases mi = [] -> relevantRelease timeValue mi = None.
Proof. intros H. unfold relevantRelease. rewrite H. reflexivity. Qed.

Lemma displayCertification_truthy (timeValue : string -> option Z)
  (mi : option MediaInfo) :
  JS.truthy (displayCertification timeValue mi) = true.
Proof.
  unfold displayCertification.
  destruct (certifiedReleases mi) as [| x l] eqn:E.
  - rewrite relevantRelease_none by exact E. reflexivity.
  - destruct (relevantRelease_In timeValue mi) as (e & He & Hin); [congruence |].
    rewrite He. apply (certification_retained mi). exact Hin.
Qed.

Lemma contentRating_truthy (mi : option MediaInfo) :
  JS.truthy (contentRating mi) = true.
Proof.
  unfold contentRating.
  destruct (usReleaseInfo mi) as [us |]; [| reflexivity].
  destruct (rating us) as [r |]; [| reflexivity].
  destruct (JS.truthy r) eqn:E; [exact E | reflexivity].
Qed.

(** X8. The badge always holds a text that is not empty: for no response,
    no media type and no dates does it show the loading placeholder or a
    blank (the placeholder branch of the movie badge is never taken). *)
Theorem badge_never_blank
  (timeValue : string -> option Z) (media : MediaItem) (mi : option MediaInfo) :
  exists s, certificationBadge timeValue media mi = Text s /\ s <> "".
Proof.
  unfold certificationBadge.
  destruct (String.eqb (type media) "movie").
  - rewrite displayCertification_truthy.
    eexists. split; [reflexivity |].
    apply truthy_true. apply displayCertification_truthy.
  - eexists. split; [reflexivity |].
    apply truthy_true. apply contentRating_truthy.
Qed.

(** X9. For a movie whose US entry has a release with a certification
    label, the badge shows the label of one of these releases, whether
    their dates are valid or not. *)
Theorem badge_label_of_some_release
  (timeValue : string -> option Z) (media : MediaItem)
  (mi : option MediaInfo) (us : RegionResult)
  (Hmovie : type media = "movie")
  (Hus : usEntry mi = Some us)
  (Hne : certifiedOf us <> []) :
  exists e, In e (certifiedOf us)
            /\ certificationBadge timeValue media mi = Text (certification e).
Proof.
  assert (Hc : certifiedReleases mi = certifiedOf us).
  { rewrite certifiedReleases_usEntry, Hus. reflexivity. }
  rewrite <- Hc in Hne |- *.
  destruct (relevantRelease_In timeValue mi Hne) as (e & He & Hin).
  exists e. split; [exact Hin |].
  rewrite movie_badge by exact Hmovie.
  rewrite displayCertification_truthy.
  unfold displayCertification. rewrite He. reflexivity.
Qed.

Lemma badge_label_of_some_release_witness :
  exists e, In e (certifiedOf undatedUS)
            /\ certificationBadge IsoDate.timeValue theMatrix undatedReleases
               = Text (certification e).
Proof.
  apply (badge_label_of_some_release IsoDate.timeValue theMatrix
           undatedReleases undatedUS);
    [reflexivity | reflexivity | discriminate].
Defined.

(** X10. A labelled release without a valid date wins over everything
    before it: when the last labelled release of the US entry of a movie has
    an invalid date, the badge shows its label, however late the dates of
    the other releases are. *)
Theorem undated_last_release_wins
  (timeValue : string -> option Z) (media : MediaItem)
  (mi : option MediaInfo) (us : RegionResult)
  (before : list ReleaseDate) (y : ReleaseDate)
  (Hmovie : type media = "movie")
  (Hus : usEntry mi = Some us)
  (Hlast : certifiedOf us = (before ++ [y])%list)
  (Hy : timeValue (release_date y) = None) :
  certificationBadge timeValue media mi = Text (certification y).
Proof.
  assert (Hc : certifiedReleases mi = (before ++ [y])%list).
  { rewrite certifiedReleases_usEntry, Hus. exact Hlast. }
  assert (Hr : relevantRelease timeValue mi = Some y).
  { unfold relevantRelease. rewrite Hc.
    destruct before as [| x l]; [reflexivity |].
    cbn [app List.length Nat.ltb Nat.leb JS.reduce].
    rewrite fold_left_app. cbn [fold_left].
    unfold laterRelease, date_gt. rewrite Hy.
    destruct (timeValue (release_date (fold_left _ l x))); reflexivity. }
  rewrite movie_badge by exact Hmovie.
  rewrite displayCertification_truthy.
  unfold displayCertification. rewrite Hr. reflexivity.
Qed.

Lemma undated_last_release_wins_witness :
  certificationBadge IsoDate.timeValue theMatrix
    (response [ {| iso_3166_1 := "US"; rating := None;
                   release_dates :=
                     Some [ release "R" "2020-01-01T00:00:00.000Z";
                            release "PG" "soon" ] |} ])
  = Text "PG".
Proof.
  apply (undated_last_release_wins IsoDate.timeValue theMatrix _
           {| iso_3166_1 := "US"; rating := None;
              release_dates :=
                Some [ release "R" "2020-01-01T00:00:00.000Z";
                       release "PG" "soon" ] |}
           [release "R" "2020-01-01T00:00:00.000Z"] (release "PG" "soon"));
    reflexivity.
Defined.

Lemma filter_no_us (extra : list RegionResult) :
  (forall r, In r extra -> iso_3166_1 r <> "US") ->
  filter (fun r => String.eqb (iso_3166_1 r) "US") extra = [].
Proof.
  intros H. induction extra as [| a l IH]; [reflexivity |].
  simpl. destruct (String.eqb_spec (iso_3166_1 a) "US") as [E | E].
  - exfalso. apply (H a); [left; reflexivity | exact E].
  - apply IH. intros r Hr. apply H. right. exact Hr.
Qed.

(** X11. Of several US entries only the first one counts: the badge of a
    response is the badge of its first US entry alone, whatever precedes it
    for other regions and whatever follows it, further US entries
    included. *)
Theorem first_us_entry_decides
  (timeValue : string -> option Z) (media : MediaItem)
  (before after : list RegionResult) (us : RegionResult)
  (Hbefore : forall r, In r before -> iso_3166_1 r <> "US")
  (Hus : iso_3166_1 us = "US") :
  certificationBadge timeValue media (response (before ++ us :: after)%list)
  = certificationBadge timeValue media (response [us]).
Proof.
  apply badge_of_usReleaseInfo.
  rewrite !usReleaseInfo_usEntry. unfold usEntry, usEntries.
  cbn [resultsOf response results].
  rewrite filter_app, filter_no_us by exact Hbefore.
  cbn [app filter]. rewrite Hus. reflexivity.
Qed.

Lemma first_us_entry_decides_witness :
  certificationBadge IsoDate.timeValue theMatrix
    (response ([ {| iso_3166_1 := "FR"; rating := None; release_dates := None |} ]
                 ++ matrixUS :: [undatedUS; singleUS])%list)
  = certificationBadge IsoDate.timeValue theMatrix (response [matrixUS]).
Proof.
  apply (first_us_entry_decides IsoDate.timeValue theMatrix).
  - intros r [<- | []]. discriminate.
  - reflexivity.
Defined.

(** X12. Which field of the US entry is read depends on the media type
    alone: the movie badge reads [release_dates] and never [rating]; the
    badge of every other type reads [rating] and never [release_dates]. *)
Theorem badge_field_by_type
  (timeValue : string -> option Z) (media : MediaItem)
  (mi1 mi2 : option MediaInfo) (us1 us2 : RegionResult)
  (H1 : usEntry mi1 = Some us1) (H2 : usEntry mi2 = Some us2) :
  (type media = "movie" -> release_dates us1 = release_dates us2 ->
   certificationBadge timeValue media mi1 = certificationBadge timeValue media mi2)
  /\ (type media <> "movie" -> rating us1 = rating us2 ->
      certificationBadge timeValue media mi1
      = certificationBadge timeValue media mi2).
Proof.
  rewrite <- usReleaseInfo_usEntry in H1, H2.
  unfold certificationBadge, displayCertification, relevantRelease,
    certifiedReleases, contentRating.
  rewrite H1, H2.
  split; intros Ht Hf.
  - rewrite Ht, Hf. reflexivity.
  - destruct (String.eqb_spec (type media) "movie"); [contradiction |].
    rewrite Hf. reflexivity.
Qed.

Lemma badge_field_by_type_witness :
  certificationBadge IsoDate.timeValue gameOfThrones (response [thronesUS])
  = certificationBadge IsoDate.timeValue gameOfThrones
      (response [ {| iso_3166_1 := "US"; rating := Some "TV-MA";
                     release_dates := Some [release "G" "2001-01-01"] |} ]).
Proof.
  apply (proj2 (badge_field_by_type IsoDate.timeValue gameOfThrones
                  (response [thronesUS])
                  (response [ {| iso_3166_1 := "US"; rating := Some "TV-MA";
                                 release_dates := Some [release "G" "2001-01-01"] |} ])
                  thronesUS _ eq_refl eq_refl)).
  - discriminate.
  - reflexivity.
Defined.

(** ** The star row, for every vote average *)

Lemma filledStars_clamp (k : Z) :
  filledStars (map (fun index =>
                      if JS.lt_number (Z.of_nat index) (Some k)
                      then STAR else STAR_BORDER) (seq 0 5))
  = clampStars k.
Proof.
  unfold clampStars.
  destruct (Z.le_gt_cases k 0) as [H0 | H0].
  - replace (Z.to_nat (Z.min 5 k)) with 0%nat by lia.
    cbn [seq map JS.lt_number Z.of_nat Pos.of_succ_nat Pos.succ].
    repeat match goal with
           | |- context [?a <? k] =>
               let E := fresh in
               destruct (Z.ltb_spec a k) as [E | E]; [lia | clear E]
           end.
    reflexivity.
  - destruct (Z.le_gt_cases 5 k) as [H5 | H5].
    + replace (Z.to_nat (Z.min 5 k)) with 5%nat by lia.
      cbn [seq map JS.lt_number Z.of_nat Pos.of_succ_nat Pos.succ].
      repeat match goal with
             | |- context [?a <? k] =>
                 let E := fresh in
                 destruct (Z.ltb_spec a k) as [E | E]; [clear E | lia]
             end.
      reflexivity.
    + rewrite Z.min_r by lia. apply filledStars_count. lia.
Qed.

Lemma starCount_some (d : MediaData) (v : Q) :
  vote_average d = Some v -> starCount (Some d) = Some (round_half_up (v / 2)).
Proof.
  intros Hv. unfold starCount, JS.Number_of, JS.half. cbn [vote_average_of].
  rewrite Hv. apply Math_round_half_up.
Qed.

(** X13. For every vote average, in range or not, the number of filled
    stars is the rounded half of it, cut to the five icons of the row: a
    vote above 10 fills all five and a negative one none; the row always
    has five icons. *)
Theorem stars_clamped (d : MediaData) (v : Q)
  (Hv : vote_average d = Some v) :
  filledStars (starRow (Some d)) = clampStars (round_half_up (v / 2))
  /\ (filledStars (starRow (Some d)) <= 5)%nat
  /\ List.length (starRow (Some d)) = 5%nat.
Proof.
  assert (H : filledStars (starRow (Some d)) = clampStars (round_half_up (v / 2))).
  { unfold starRow. rewrite (starCount_some d v Hv). apply filledStars_clamp. }
  split; [exact H |]. split; [| reflexivity].
  rewrite H. unfold clampStars. lia.
Qed.

Lemma stars_clamped_witness :
  filledStars (starRow (Some (ratedData 37))) = clampStars (round_half_up (37 / 2))
  /\ (filledStars (starRow (Some (ratedData 37))) <= 5)%nat
  /\ List.length (starRow (Some (ratedData 37))) = 5%nat.
Proof.
  apply (stars_clamped (ratedData 37) 37). reflexivity.
Defined.

Lemma round_half_up_le (p q : Q) :
  (p <= q)%Q -> round_half_up p <= round_half_up q.
Proof.
  intros H. unfold round_half_up. apply Qfloor_resp_le.
  apply Qplus_le_l. exact H.
Qed.

(** X14. A better vote never shows fewer stars. *)
Theorem stars_monotone (d d' : MediaData) (v v' : Q)
  (Hv : vote_average d = Some v) (Hv' : vote_average d' = Some v')
  (Hle : (v <= v')%Q) :
  (filledStars (starRow (Some d)) <= filledStars (starRow (Some d')))%nat.
Proof.
  unfold starRow.
  rewrite (starCount_some d v Hv), (starCount_some d' v' Hv').
  rewrite !filledStars_clamp. unfold clampStars.
  assert (H : round_half_up (v / 2) <= round_half_up (v' / 2)).
  { apply round_half_up_le.
    apply Qmult_le_compat_r; [exact Hle | unfold Qle; simpl; lia]. }
  lia.
Qed.

Lemma stars_monotone_witness :
  (filledStars (starRow (Some (ratedData (13 # 2))))
   <= filledStars (starRow (Some (ratedData 7))))%nat.
Proof.
  apply (stars_monotone (ratedData (13 # 2)) (ratedData 7) (13 # 2) 7);
    [reflexivity | reflexivity | unfold Qle; simpl; lia].
Defined.

(** ** Runtime text over the safe integers *)

(** X15. Over the safe integers, negative ones included: the runtime text
    has an hour segment exactly from sixty minutes on, with a minute count
    below sixty after it; below sixty minutes it is the minute count alone,
    which for a negative runtime is the truncated remainder with its
    sign. *)
Theorem formatRuntime_piecewise (r : Z)
  (Hsafe : - JS.MAX_SAFE_INTEGER <= r <= JS.MAX_SAFE_INTEGER) :
  (60 <= r ->
   formatRuntime r
   = JS.Number_toString (r / 60) ++ "h " ++ JS.Number_toString (r mod 60) ++ "m"
   /\ 0 < r / 60 <= JS.MAX_SAFE_INTEGER /\ 0 <= r mod 60 < 60)
  /\ (0 <= r < 60 -> formatRuntime r = JS.Number_toString r ++ "m")
  /\ (r < 0 ->
      formatRuntime r = JS.Number_toString (- ((- r) mod 60)) ++ "m"
      /\ -60 < - ((- r) mod 60) <= 0).
Proof.
  split; [| split].
  - intros H. split; [| split].
    + unfold formatRuntime. rewrite hours_positive.
      destruct (Z.leb_spec 60 r); [| lia].
      rewrite remainder_mod by lia. reflexivity.
    + split; [apply Z.div_str_pos; lia |].
      apply Z.le_trans with r; [| apply Hsafe].
      apply Z.div_le_upper_bound; lia.
    + apply Z.mod_pos_bound. lia.
  - apply formatRuntime_minutes_only.
  - intros H. split.
    + rewrite formatRuntime_below_zero by exact H.
      do 2 f_equal.
      replace r with (- (- r)) at 1 by lia.
      rewrite Z.rem_opp_l by lia.
      rewrite Z.rem_mod_nonneg by lia. reflexivity.
    + pose proof (Z.mod_pos_bound (- r) 60). lia.
Qed.

Lemma formatRuntime_piecewise_witness :
  formatRuntime 600 = "10h 0m"
  /\ formatRuntime 59 = "59m"
  /\ formatRuntime (-125) = "-5m".
Proof.
  assert (S1 : - JS.MAX_SAFE_INTEGER <= 600 <= JS.MAX_SAFE_INTEGER)
    by (unfold JS.MAX_SAFE_INTEGER; lia).
  assert (S2 : - JS.MAX_SAFE_INTEGER <= 59 <= JS.MAX_SAFE_INTEGER)
    by (unfold JS.MAX_SAFE_INTEGER; lia).
  assert (S3 : - JS.MAX_SAFE_INTEGER <= -125 <= JS.MAX_SAFE_INTEGER)
    by (unfold JS.MAX_SAFE_INTEGER; lia).
  destruct (formatRuntime_piecewise 600 S1) as (H1 & _ & _).
  destruct (formatRuntime_piecewise 59 S2) as (_ & H2 & _).
  destruct (formatRuntime_piecewise (-125) S3) as (_ & _ & H3).
  split; [| split].
  - destruct H1 as (H1 & _); [lia | exact H1].
  - apply H2. lia.
  - destruct H3 as (H3 & _); [lia | exact H3].
Defined.

(** ** The slots of the overlay *)

Lemma beforeDash_append (y rest : string) :
  noDash y = true -> beforeDash (y ++ String "-" rest) = y.
Proof.
  induction y as [| c y IH]; intros H; simpl.
  - reflexivity.
  - simpl in H. apply andb_true_iff in H. destruct H as [Hc Hy].
    apply negb_true_iff in Hc. rewrite Hc, IH by exact Hy. reflexivity.
Qed.

Lemma beforeDash_noDash (s : string) : noDash s = true -> beforeDash s = s.
Proof.
  induction s as [| c s IH]; intros H; simpl; [reflexivity |].
  simpl in H. apply andb_true_iff in H. destruct H as [Hc Hs].
  apply negb_true_iff in Hc. rewrite Hc, IH by exact Hs. reflexivity.
Qed.

Lemma noDash_beforeDash (s : string) : noDash (beforeDash s) = true.
Proof.
  induction s as [| c s IH]; simpl; [reflexivity |].
  destruct (Ascii.eqb c "-") eqn:E; simpl; [reflexivity |].
  rewrite E, IH. reflexivity.
Qed.

(** X16. The year shown is the part of the date before its first dash: it
    never holds a dash, a date [y-rest] with a dash-free [y] shows [y], and
    a date without any dash is shown whole. *)
Theorem year_before_first_dash (s y rest : string) :
  noDash (beforeDash s) = true
  /\ (noDash y = true -> beforeDash (y ++ String "-" rest) = y)
  /\ (noDash s = true -> beforeDash s = s).
Proof.
  split; [apply noDash_beforeDash |].
  split; [apply beforeDash_append | apply beforeDash_noDash].
Qed.

Lemma year_before_first_dash_witness :
  beforeDash ("1999" ++ String "-" "03-31") = "1999"
  /\ beforeDash "1999" = "1999".
Proof.
  destruct (year_before_first_dash "1999" "1999" "03-31") as (_ & H1 & H2).
  split; [apply H1 | apply H2]; reflexivity.
Defined.

(** X17. The year slot reads [release_date] for a movie and
    [first_air_date] for a show, and shows the placeholder while that date
    is missing or empty; for a date that starts with a dash-free year and a
    dash it shows that year. *)
Theorem year_slot
  (timeValue : string -> option Z) (props : Props) (st : State)
  (d : MediaData) (y rest : string)
  (Hdata : data st = Some d)
  (Hy : noDash y = true) (Hne : y <> "") :
  (type (media props) = "movie" ->
   (release_date_md d = Some (y ++ String "-" rest) ->
    b_year (renderBody timeValue props st) = Some (Text y))
   /\ (release_date_md d = None \/ release_date_md d = Some "" ->
       b_year (renderBody timeValue props st) = Some Skeleton))
  /\ (type (media props) = "show" ->
      (first_air_date d = Some (y ++ String "-" rest) ->
       b_year (renderBody timeValue props st) = Some (Text y))
      /\ (first_air_date d = None \/ first_air_date d = Some "" ->
          b_year (renderBody timeValue props st) = Some Skeleton)).
Proof.
  assert (Ht : JS.truthy (y ++ String "-" rest) = true).
  { destruct y; [congruence | reflexivity]. }
  unfold renderBody, isTVShow. cbn [b_year]. rewrite Hdata.
  cbn [field_of].
  split; intros Htype; rewrite Htype;
    cbn [String.eqb Ascii.eqb Bool.eqb]; split.
  - intros H. rewrite H. unfold textOrSkeleton. rewrite Ht.
    rewrite beforeDash_append by exact Hy. reflexivity.
  - intros [H | H]; rewrite H; reflexivity.
  - intros H. rewrite H. unfold textOrSkeleton. rewrite Ht.
    rewrite beforeDash_append by exact Hy. reflexivity.
  - intros [H | H]; rewrite H; reflexivity.
Qed.

Lemma year_slot_witness :
  b_year (renderBody IsoDate.timeValue shownMovie
            (setData (Some matrixData) shownState))
  = Some (Text "1999").
Proof.
  assert (Hne : "1999" <> "") by discriminate.
  destruct (year_slot IsoDate.timeValue shownMovie
              (setData (Some matrixData) shownState) matrixData "1999" "03-31"
              eq_refl eq_refl Hne) as [Hm _].
  destruct (Hm eq_refl) as [H _]. apply H. reflexivity.
Defined.

(** X18. The runtime slot exists for a movie only.  It shows the formatted
    runtime when the metadata carries a runtime other than zero, and the
    placeholder while the metadata or the runtime is missing, and also when
    the runtime is zero. *)
Theorem runtime_shown
  (timeValue : string -> option Z) (props : Props) (st : State) :
  (type (media props) <> "movie" ->
   b_runtime (renderBody timeValue props st) = None)
  /\ (type (media props) = "movie" ->
      forall r, field_of runtime (data st) = Some r -> r <> 0 ->
      b_runtime (renderBody timeValue props st) = Some (Text (formatRuntime r)))
  /\ (type (media props) = "movie" ->
      field_of runtime (data st) = None \/ field_of runtime (data st) = Some 0 ->
      b_runtime (renderBody timeValue props st) = Some Skeleton).
Proof.
  unfold renderBody. cbn [b_runtime].
  split; [| split].
  - intros H. destruct (String.eqb_spec (type (media props)) "movie");
      [contradiction | reflexivity].
  - intros H r Hr Hne. rewrite H, Hr. cbn [String.eqb Ascii.eqb Bool.eqb].
    destruct (Z.eqb_spec r 0); [contradiction | reflexivity].
  - intros H [Hr | Hr]; rewrite H, Hr; reflexivity.
Qed.

Lemma runtime_shown_witness :
  b_runtime (renderBody IsoDate.timeValue shownShow shownState) = None
  /\ b_runtime (renderBody IsoDate.timeValue shownMovie shownState)
     = Some Skeleton.
Proof.
  split.
  - apply (proj1 (runtime_shown IsoDate.timeValue shownShow shownState)).
    discriminate.
  - apply (proj2 (proj2 (runtime_shown IsoDate.timeValue shownMovie shownState))).
    + reflexivity.
    + left. reflexivity.
Defined.

(** X19. The heading prefers [title] to [name]: it shows the title when
    there is one that is not empty, else the name when there is one that is
    not empty, else the placeholder. *)
Theorem heading_slot
  (timeValue : string -> option Z) (props : Props) (st : State) :
  b_heading (renderBody timeValue props st)
  = match field_of md_title (data st), field_of name (data st) with
    | Some (String c t), _ => Text (String c t)
    | _, Some (String c n) => Text (String c n)
    | _, _ => Skeleton
    end.
Proof.
  unfold renderBody. cbn [b_heading]. unfold orElse, textOrSkeleton.
  destruct (field_of md_title (data st)) as [[| c t] |];
    destruct (field_of name (data st)) as [[| c' n] |]; reflexivity.
Qed.

(** X20. The genre row is never empty: it shows one entry per genre, in
    order, when the metadata lists genres, and three placeholders while the
    genres are missing or the list is empty. *)
Theorem genre_row
  (timeValue : string -> option Z) (props : Props) (st : State) :
  b_genres (renderBody timeValue props st) <> []
  /\ (forall gs, field_of genres (data st) = Some gs -> gs <> [] ->
      b_genres (renderBody timeValue props st) = map Text gs)
  /\ (field_of genres (data st) = None \/ field_of genres (data st) = Some [] ->
      b_genres (renderBody timeValue props st) = [Skeleton; Skeleton; Skeleton]).
Proof.
  unfold renderBody. cbn [b_genres].
  split; [| split].
  - destruct (field_of genres (data st)) as [[| g gs] |]; discriminate.
  - intros gs H Hne. rewrite H. destruct gs; [congruence | reflexivity].
  - intros [H | H]; rewrite H; reflexivity.
Qed.

Lemma genre_row_witness :
  b_genres (renderBody IsoDate.timeValue shownMovie shownState)
  = [Skeleton; Skeleton; Skeleton].
Proof.
  apply (proj2 (proj2 (genre_row IsoDate.timeValue shownMovie shownState))).
  left. reflexivity.
Defined.

(** X21. For a media type other than movie and show the overlay has no
    runtime, no year and no episode selector, its badge is the content
    rating of the US entry or ["NR"], and its watch route is the one of a
    movie. *)
Theorem unsupported_type_view
  (timeValue : string -> option Z) (props : Props) (st : State)
  (Hmovie : type (media props) <> "movie")
  (Hshow : type (media props) <> "show") :
  let body := renderBody timeValue props st in
  b_runtime body = None
  /\ b_year body = None
  /\ b_episodeSelector body = None
  /\ b_certification body = Text (contentRating (mediaInfo st))
  /\ b_watch body
     = [Navigate ("/media/tmdb-movie-" ++ id (media props) ++ "-"
                    ++ title (media props))].
Proof.
  unfold renderBody, certificationBadge, watch_onClick, watchRoute, isTVShow.
  cbn [b_runtime b_year b_episodeSelector b_certification b_watch].
  destruct (String.eqb_spec (type (media props)) "movie"); [contradiction |].
  destruct (String.eqb_spec (type (media props)) "show"); [contradiction |].
  repeat split.
Qed.

Lemma unsupported_type_view_witness :
  b_watch (renderBody IsoDate.timeValue
             {| isVisible := true; onClose := 7;
                media := {| id := "42"; type := "anime"; title := "T";
                            poster := None |} |} shownState)
  = [Navigate "/media/tmdb-movie-42-T"].
Proof.
  apply (unsupported_type_view IsoDate.timeValue
           {| isVisible := true; onClose := 7;
              media := {| id := "42"; type := "anime"; title := "T";
                          poster := None |} |} shownState);
    discriminate.
Defined.

(** X22. The episode selector is part of the overlay exactly for a show,
    and it is given the id and the display title of the media. *)
Theorem episode_selector_for_shows
  (timeValue : string -> option Z) (props : Props) (st : State) :
  (type (media props) = "show" ->
   b_episodeSelector (renderBody timeValue props st)
   = Some (id (media props), title (media props)))
  /\ (b_episodeSelector (renderBody timeValue props st) <> None ->
      type (media props) = "show").
Proof.
  unfold renderBody, isTVShow. cbn [b_episodeSelector].
  destruct (String.eqb_spec (type (media props)) "show") as [E | E].
  - split; [reflexivity | intros _; exact E].
  - split; [contradiction | congruence].
Qed.

Lemma episode_selector_for_shows_witness :
  b_episodeSelector (renderBody IsoDate.timeValue shownShow shownState)
  = Some ("1399", "Game of Thrones").
Proof.
  apply (proj1 (episode_selector_for_shows IsoDate.timeValue shownShow shownState)).
  reflexivity.
Defined.

(** ** The subscription over the life of the instance *)

Lemma current_after_commit (h : list (Props * View * DomNode)) (props : Props)
  (v : View) (panel : DomNode) (w : World) :
  current (commits (h ++ [(props, v, panel)])%list w) = Some props.
Proof. rewrite commits_app. reflexivity. Qed.

Lemma In_addEventListener (l x : Listener) (ls : list Listener) :
  In x (addEventListener l ls) -> x = l \/ In x ls.
Proof.
  unfold addEventListener.
  destruct (existsb _ ls); [right; assumption |].
  intros H. apply in_app_or in H. destruct H as [H | [H | []]].
  - right. exact H.
  - left. symmetry. exact H.
Qed.

Lemma FreshIds_cleanup (w : World) : FreshIds w -> FreshIds (cleanup w).
Proof.
  unfold FreshIds, cleanup. intros H.
  destruct (subscribed w) as [l |]; [| exact H].
  cbn [mousedown fresh]. intros x Hx.
  apply filter_In in Hx. apply H. tauto.
Qed.

Lemma FreshIds_subscribe (props : Props) (w : World) :
  FreshIds w -> FreshIds (subscribe props w).
Proof.
  unfold FreshIds, subscribe. cbn [mousedown fresh]. intros H x Hx.
  apply In_addEventListener in Hx. destruct Hx as [-> | Hx].
  - cbn. lia.
  - specialize (H x Hx). lia.
Qed.

Lemma FreshIds_commit (props : Props) (v : View) (panel : DomNode) (w : World) :
  FreshIds w -> FreshIds (commit props v panel w).
Proof.
  intros H.
  assert (H1 : FreshIds (subscriptionEffect props w)).
  { unfold subscriptionEffect. destruct (current w) as [old |].
    - destruct (Nat.eqb (onClose old) (onClose props)); [exact H |].
      apply FreshIds_subscribe, FreshIds_cleanup. exact H.
    - apply FreshIds_subscribe. exact H. }
  exact H1.
Qed.

Lemma FreshIds_commits (h : list (Props * View * DomNode)) (w : World) :
  FreshIds w -> FreshIds (commits h w).
Proof.
  revert w. induction h as [| [[props v] panel] h IH]; intros w Hw; simpl.
  - exact Hw.
  - apply IH. apply FreshIds_commit. exact Hw.
Qed.

Lemma FreshIds_empty : FreshIds emptyWorld.
Proof. intros l []. Qed.

(** X23. Whatever the history of renders, the document holds one listener
    of the instance, and a pointer-down event calls nothing but the
    [onClose] of the last render, at most once: a callback of an earlier
    render is never called. *)
Theorem only_current_callback
  (h : list (Props * View * DomNode)) (props : Props) (v : View)
  (panel : DomNode) (target : nat) :
  let w := commits (h ++ [(props, v, panel)])%list emptyWorld in
  List.length (mousedown w) = 1%nat
  /\ (dispatchMousedown target w = []
      \/ dispatchMousedown target w = [CallOnClose (onClose props)]).
Proof.
  intros w. destruct (commit_last h props v panel) as (Href & l & Hm & Ho).
  fold w in Href, Hm. split; [rewrite Hm; reflexivity |].
  unfold dispatchMousedown. rewrite Hm. cbn [flat_map]. rewrite app_nil_r.
  unfold handleClickOutside.
  destruct (modalRef w) as [cur |]; [| left; reflexivity].
  destruct (contains cur target); [left; reflexivity |].
  right. rewrite Ho. reflexivity.
Qed.

(** X24. While the component renders the error line, or nothing, the ref
    is not attached and no pointer-down event calls [onClose], wherever its
    target is: the error line cannot be dismissed by a click outside. *)
Theorem no_dismissal_without_panel
  (timeValue : string -> option Z)
  (h : list (Props * View * DomNode)) (props : Props) (st : State)
  (panel : DomNode) (target : nat)
  (Hview : isHidden props st = true \/ JS.truthy_opt (error st) = true) :
  dispatchMousedown target
    (commits (h ++ [(props, render timeValue props st, panel)])%list emptyWorld)
  = [].
Proof.
  apply click_without_panel. intros body. rewrite render_cases.
  destruct Hview as [H | H].
  - rewrite H. discriminate.
  - destruct (isHidden props st); [discriminate |].
    destruct (error st) as [[| c s] |]; try discriminate H. discriminate.
Qed.

Lemma no_dismissal_without_panel_witness :
  dispatchMousedown 1
    (commits (sampleHistory
                ++ [(shownMovie,
                     render IsoDate.timeValue shownMovie
                       (fetchData_settled Rejected shownState),
                     panelNode)])%list emptyWorld)
  = [].
Proof.
  apply (no_dismissal_without_panel IsoDate.timeValue sampleHistory shownMovie
           (fetchData_settled Rejected shownState) panelNode 1).
  right. reflexivity.
Defined.

Lemma Subscribed_unmount (w : World) : Subscribed w -> Subscribed (unmount w).
Proof.
  unfold Subscribed, unmount, cleanup. cbn [current mousedown subscribed].
  destruct (current w) as [p |].
  - intros (l & Hm & Hs & _). rewrite Hs. cbn [mousedown].
    rewrite Hm, removeEventListener_self. split; reflexivity.
  - intros (Hm & Hs). rewrite Hs. split; [exact Hm | reflexivity].
Qed.

(** X25. The subscription is released on unmount and taken again on a new
    mount: after the unmount the document holds no listener of the instance
    and an event calls nothing; after further commits it holds exactly one,
    with the [onClose] of the last render. *)
Theorem unmount_then_mount
  (h h' : list (Props * View * DomNode)) (props : Props) (v : View)
  (panel : DomNode) (target : nat) :
  let w := unmount (commits h emptyWorld) in
  mousedown w = []
  /\ dispatchMousedown target w = []
  /\ exists l, mousedown (commits (h' ++ [(props, v, panel)])%list w) = [l]
               /\ l_onClose l = onClose props.
Proof.
  intros w.
  assert (Hs : Subscribed w).
  { apply Subscribed_unmount, Subscribed_commits, Subscribed_empty. }
  assert (Hm : mousedown w = []).
  { unfold Subscribed in Hs. unfold w in *. cbn [unmount current] in Hs.
    destruct Hs as [Hm _]. exact Hm. }
  split; [exact Hm |].
  split; [unfold dispatchMousedown; rewrite Hm; reflexivity |].
  rewrite commits_app. cbn [commits].
  pose proof (Subscribed_commit props v panel _ (Subscribed_commits h' w Hs)) as H.
  unfold Subscribed in H. cbn [commit current] in H.
  destruct H as (l & Hl & _ & Ho). exists l. split; assumption.
Qed.

(** X26. A render with the same [onClose] leaves the listener of the
    document in place; a render with another [onClose] replaces it by a
    listener with a new identity that captured the new callback. *)
Theorem resubscribe_on_change
  (h : list (Props * View * DomNode)) (old : Props) (v0 : View) (p0 : DomNode)
  (props : Props) (v : View) (panel : DomNode) :
  let w := commits (h ++ [(old, v0, p0)])%list emptyWorld in
  (onClose old = onClose props ->
   mousedown (commit props v panel w) = mousedown w)
  /\ (onClose old <> onClose props ->
      exists l l',
        mousedown w = [l] /\ mousedown (commit props v panel w) = [l']
        /\ l_id l' <> l_id l /\ l_onClose l' = onClose props).
Proof.
  intros w.
  assert (Hc : current w = Some old) by apply current_after_commit.
  pose proof (Subscribed_commits (h ++ [(old, v0, p0)])%list emptyWorld
                Subscribed_empty) as Hs.
  pose proof (FreshIds_commits (h ++ [(old, v0, p0)])%list emptyWorld
                FreshIds_empty) as Hf.
  fold w in Hs, Hf. clearbody w. unfold Subscribed in Hs. rewrite Hc in Hs.
  destruct Hs as (l & Hm & Hsub & Ho).
  unfold commit, subscriptionEffect. cbn [mousedown]. rewrite Hc.
  split; intros H.
  - rewrite H, Nat.eqb_refl. reflexivity.
  - destruct (Nat.eqb_spec (onClose old) (onClose props)); [contradiction |].
    exists l. eexists. split; [exact Hm |].
    unfold cleanup. rewrite Hsub. unfold subscribe. cbn.
    rewrite Hm, removeEventListener_self. cbn.
    split; [reflexivity |]. split; [| reflexivity].
    assert (Hlt : (l_id l < fresh w)%nat).
    { apply Hf. rewrite Hm. left. reflexivity. }
    cbn [l_id]. lia.
Qed.

Lemma resubscribe_on_change_witness :
  exists l l',
    mousedown (commits ([] ++ [(hiddenMovie, NullView, panelNode)])%list emptyWorld)
    = [l]
    /\ mousedown
         (commit {| isVisible := true; onClose := 9; media := theMatrix |}
            NullView panelNode
            (commits ([] ++ [(hiddenMovie, NullView, panelNode)])%list emptyWorld))
       = [l']
    /\ l_id l' <> l_id l /\ l_onClose l' = 9%nat.
Proof.
  apply (proj2 (resubscribe_on_change [] hiddenMovie NullView panelNode
                  {| isVisible := true; onClose := 9; media := theMatrix |}
                  NullView panelNode)).
  discriminate.
Defined.
